(** * euporie: tab bar, stacked splits, cell outputs and the application shell

    A shallow embedding of these parts of euporie:

    - [widgets/layout.py]: [Tab], [TabControl] ([render], [mouse_handler]),
      [StackedSplit] (constructor, the setters of [active], [children] and
      [titles], [active_child]), [TabbedSplit], [AccordionSplit.toggle] and
      [ConditionalSplit];
    - [widgets/cell_outputs.py]: [MIME_RENDERERS], [MIME_ORDER],
      [_calculate_mime_rank], [CellOutput] and [CellOutputArea];
    - [app/tui.py]: [TuiApp.dialog], [TuiApp.exit], [TuiApp.tab_op],
      [TuiApp.format_status] and [TuiApp.help_logs];
    - [preview/app.py]: [PseudoTTY] and the output file that
      [PreviewApp.load_output] chooses.

    Python values are modelled as the code has them: [int] as [Z], [str] as
    [string], lists as [list], dictionaries whose order matters as the list of
    their items and caches as [gmap]; an exception is an explicit [Raise]
    result.  Objects that the code shares and mutates live in a store and are
    named by their address.  Callbacks supplied by callers are opaque
    identifiers whose invocations are recorded in a trace, in the order the
    code makes them. *)

From Stdlib Require Import ZArith Ascii String List Bool Lia.
From stdpp Require Import base option list gmap strings.

Local Open Scope string_scope.
Local Open Scope list_scope.
Local Open Scope Z_scope.

(** ** Python *)

Module Py.

(** The exceptions the modelled code can raise. *)
Inductive exn : Type :=
| IndexError
| KeyError
| StopIteration
| AttributeError
| ValueError.

(** A computation that returns a value or raises. *)
Inductive result (A : Type) : Type :=
| Ok (a : A)
| Raise (e : exn).
Arguments Ok {A} a.
Arguments Raise {A} e.

(** [seq[i]] for a Python sequence: a negative index counts from the end,
    anything outside [-len, len) raises [IndexError]. *)
Definition index {A : Type} (l : list A) (i : Z) : result A :=
  let n := Z.of_nat (length l) in
  let j := if i <? 0 then n + i else i in
  if (0 <=? j) && (j <? n)
  then match nth_error l (Z.to_nat j) with
       | Some a => Ok a
       | None => Raise IndexError
       end
  else Raise IndexError.

(** [needle in hay] on [str]. *)
Fixpoint str_in (needle hay : string) : bool :=
  String.prefix needle hay ||
  match hay with
  | EmptyString => false
  | String _ hay' => str_in needle hay'
  end.

(** [s.split("/")]: the pieces between the separators, empty ones kept. *)
Fixpoint split_slash (s : string) : list string :=
  match s with
  | EmptyString => [EmptyString]
  | String c s' =>
      if Ascii.eqb c "/"%char
      then EmptyString :: split_slash s'
      else match split_slash s' with
           | [] => [String c EmptyString]
           | p :: ps => String c p :: ps
           end
  end.

(** [s.lstrip("/")] together with the number of slashes removed. *)
Fixpoint lstrip_slash (s : string) : nat * string :=
  match s with
  | String c s' =>
      if Ascii.eqb c "/"%char
      then let '(n, r) := lstrip_slash s' in (S n, r)
      else (O, s)
  | EmptyString => (O, s)
  end.

(** [fnmatch.fnmatchcase(name, pat)]: [*] matches any run of characters,
    [?] any one character, every other character itself.  Bracket
    expressions are not modelled: no pattern of [MIME_ORDER] or
    [MIME_RENDERERS] contains one. *)
Fixpoint fnmatchcase (name pat : string) : bool :=
  match pat with
  | EmptyString =>
      match name with EmptyString => true | _ => false end
  | String p pat' =>
      if Ascii.eqb p "*"%char then
        (fix star (n : string) : bool :=
           fnmatchcase n pat' ||
           match n with
           | EmptyString => false
           | String _ n' => star n'
           end) name
      else
        match name with
        | EmptyString => false
        | String c name' =>
            (Ascii.eqb p "?"%char || Ascii.eqb p c) && fnmatchcase name' pat'
        end
  end.

(** [pathlib.PurePosixPath]: the root ([""], ["/"] or ["//"]) and the parts,
    the root being the first part when there is one.  Empty components and
    ["."] components are dropped when the path is parsed. *)
Record PurePath : Type := mkPurePath {
  root : string;
  parts : list string
}.

Definition keep_part (x : string) : bool :=
  negb (String.eqb x "") && negb (String.eqb x ".").

Definition parse_path (s : string) : PurePath :=
  let '(n, rel) := lstrip_slash s in
  let r := match n with
           | O => ""
           | 2%nat => "//"
           | _ => "/"
           end in
  let ps := List.filter keep_part (split_slash rel) in
  {| root := r;
     parts := if String.eqb r "" then ps else r :: ps |}.

(** [all(fnmatchcase(part, pat) for part, pat in zip(reversed(parts),
    reversed(pat_parts)))]. *)
Fixpoint match_zip (rparts rpats : list string) : bool :=
  match rparts, rpats with
  | part :: rparts', pat :: rpats' =>
      fnmatchcase part pat && match_zip rparts' rpats'
  | _, _ => true
  end.

(** [PurePath(path).match(pattern)].  The library raises [ValueError] for a
    pattern without parts; every pattern the modelled code passes is a
    constant with parts, and such a pattern is answered [false] here. *)
Definition path_match (path pattern : string) : bool :=
  let p := parse_path path in
  let q := parse_path pattern in
  match parts q with
  | [] => false
  | _ =>
      if negb (String.eqb (root q) "") then
        String.eqb (root q) (root p)
        && Nat.eqb (length (parts q)) (length (parts p))
        && match_zip (rev (parts p)) (rev (tl (parts q)))
      else
        negb (Nat.ltb (length (parts p)) (length (parts q)))
        && match_zip (rev (parts p)) (rev (parts q))
  end.

(** [sorted(items, key=key)]: the sort is stable, so its result is the one of
    inserting each item, from the last to the first, before the first item
    already placed whose key is not smaller. *)
Fixpoint insert_key {A : Type} (key : A -> Z) (x : A) (l : list A) : list A :=
  match l with
  | [] => [x]
  | y :: l' => if key x <=? key y then x :: y :: l' else y :: insert_key key x l'
  end.

Fixpoint sorted {A : Type} (key : A -> Z) (l : list A) : list A :=
  match l with
  | [] => []
  | x :: l' => insert_key key x (sorted key l')
  end.

(** [sep.join(items)]. *)
Fixpoint join (sep : string) (items : list string) : string :=
  match items with
  | [] => ""
  | [x] => x
  | x :: rest => (x ++ sep ++ join sep rest)%string
  end.

(** [str(x)] inside an f-string for an optional string: [None] prints as
    ["None"]. *)
Definition fmt (x : option string) : string :=
  match x with
  | Some s => s
  | None => "None"
  end.

(** [key in d] and [d[key]] for a dictionary kept as the list of its items. *)
Definition has_key {V : Type} (key : string) (d : list (string * V)) : bool :=
  existsb (fun kv => String.eqb (fst kv) key) d.

Fixpoint getitem {V : Type} (d : list (string * V)) (key : string) : result V :=
  match d with
  | [] => Raise KeyError
  | (k, v) :: d' => if String.eqb k key then Ok v else getitem d' key
  end.

End Py.

(** ** widgets/cell_outputs.py *)

Module CellOutputs.
Import Py.

(** The two renderer classes, [CellOutputWidgetElement] and
    [CellOutputDataElement]. *)
Inductive OutputElement : Type :=
| CellOutputWidgetElement
| CellOutputDataElement.

(** [MIME_RENDERERS]: a dictionary, iterated in insertion order. *)
Definition MIME_RENDERERS : list (string * OutputElement) :=
  [ ("application/vnd.jupyter.widget-view+json", CellOutputWidgetElement);
    ("*", CellOutputDataElement) ].

Definition MIME_ORDER : list string :=
  [ "application/vnd.jupyter.widget-view+json";
    "image/*";
    "application/pdf";
    "text/latex";
    "text/markdown";
    "text/x-markdown";
    "text/x-python-traceback";
    "text/stderr";
    "text/html";
    "text/*";
    "*" ].

(** The ANSI escape marker, ["\x1b["], and the line feed. *)
Definition ansi_marker : string := String "027"%char "[".
Definition newline : string := String "010"%char "".

(** The loop of [_calculate_mime_rank] from position [i] of the table on.
    [enumerate] binds [i] afresh in every round, so the two adjustments made
    in one round are gone in the next. *)
Fixpoint rank_from (mime data : string) (i : Z) (order : list string) : Z :=
  match order with
  | [] => 999
  | ranked_mime :: order' =>
      let i1 :=
        if String.eqb mime "text/plain" && str_in ansi_marker data
        then i - 2 else i in
      let i2 :=
        if String.eqb mime "text/html" && negb (str_in "<" data)
        then i1 + 2 else i1 in
      if path_match mime ranked_mime then i2
      else rank_from mime data (i + 1) order'
  end.

Definition _calculate_mime_rank (mime_data : string * string) : Z :=
  let '(mime, data) := mime_data in
  rank_from mime data 0 MIME_ORDER.

(** One raw output record: the keys of the JSON object that the code reads,
    each [None] when the object has no such key.  A JSON object has no key
    twice, so the items of [json_data] have distinct keys. *)
Record OutputJson : Type := mkOutputJson {
  json_output_type : option string;
  json_name : option string;
  json_text : option string;
  json_traceback : option (list string);
  json_data : option (list (string * string));
  json_metadata : option (list (string * list (string * string)))
}.

(** The owning cell, by identity. *)
Definition Cell : Type := nat.

(** What a renderer class was constructed with.  The widgets it builds inside
    ([Display], a comm's view) belong to other modules. *)
Record Element : Type := mkElement {
  element_class : OutputElement;
  element_mime : string;
  element_data : string;
  element_metadata : list (string * string);
  element_cell : Cell
}.

(** A [CellOutput] object. *)
Record CellOutput : Type := mkCellOutput {
  cell : Cell;
  _json : OutputJson;
  _selected_mime : option string;
  _containers : gmap string Element
}.

(** [CellOutput.__init__]. *)
Definition CellOutput_init (json : OutputJson) (c : Cell) : CellOutput :=
  {| cell := c;
     _json := json;
     _selected_mime := None;
     _containers := ∅ |}.

(** The [data] property, in two steps: the dictionary built from the output
    type, and its items sorted by rank. *)
Definition data_items (json : OutputJson) : list (string * string) :=
  let output_type := default "unknown" (json_output_type json) in
  if String.eqb output_type "stream" then
    [ (("stream/" ++ fmt (json_name json))%string,
       default "" (json_text json)) ]
  else if String.eqb output_type "error" then
    [ ("text/x-python-traceback",
       join newline (default [] (json_traceback json))) ]
  else default [] (json_data json).

Definition CellOutput_data (self : CellOutput) : list (string * string) :=
  sorted _calculate_mime_rank (data_items (_json self)).

(** [next(x for x in data)]. *)
Definition next_key (data : list (string * string)) : result string :=
  match data with
  | [] => Raise StopIteration
  | (x, _) :: _ => Ok x
  end.

(** The [selected_mime] property. *)
Definition selected_mime (self : CellOutput) : result string :=
  let data := CellOutput_data self in
  match _selected_mime self with
  | Some m => if has_key m data then Ok m else next_key data
  | None => next_key data
  end.

(** The getter and the setter of the [json] property. *)
Definition CellOutput_json (self : CellOutput) : OutputJson := _json self.

Definition CellOutput_set_json (self : CellOutput) (outputs_json : OutputJson)
  : CellOutput :=
  {| cell := cell self;
     _json := outputs_json;
     _selected_mime := _selected_mime self;
     _containers := ∅ |}.

(** The loop over [MIME_RENDERERS.items()] of the [container] property: the
    class of the first pattern that the MIME type matches. *)
Fixpoint find_renderer (mime : string)
    (renderers : list (string * OutputElement)) : option OutputElement :=
  match renderers with
  | [] => None
  | (mime_pattern, cls) :: renderers' =>
      if path_match mime mime_pattern then Some cls
      else find_renderer mime renderers'
  end.

(** [json.get("metadata", {}).get(mime, {})]. *)
Definition metadata_for (json : OutputJson) (mime : string)
  : list (string * string) :=
  match getitem (default [] (json_metadata json)) mime with
  | Ok m => m
  | Raise _ => []
  end.

(** The [container] property: the element and the object afterwards.  When
    no pattern matches, the loop ends and the element is looked up in
    [_containers], where it is known to be missing. *)
Definition container (self : CellOutput) : result Element * CellOutput :=
  match selected_mime self with
  | Raise e => (Raise e, self)
  | Ok mime =>
      match _containers self !! mime with
      | Some element => (Ok element, self)
      | None =>
          match find_renderer mime MIME_RENDERERS with
          | Some cls =>
              match getitem (CellOutput_data self) mime with
              | Raise e => (Raise e, self)
              | Ok d =>
                  let element :=
                    {| element_class := cls;
                       element_mime := mime;
                       element_data := d;
                       element_metadata := metadata_for (_json self) mime;
                       element_cell := cell self |} in
                  (Ok element,
                   {| cell := cell self;
                      _json := _json self;
                      _selected_mime := _selected_mime self;
                      _containers := <[mime := element]> (_containers self) |})
              end
          | None => (Raise KeyError, self)
          end
      end
  end.

(** The [CellOutput] objects the class can make: one is constructed, its
    [json] is assigned, its [container] is read.  Nothing else writes its
    fields. *)
Inductive reachable : CellOutput -> Prop :=
| reach_init (json : OutputJson) (c : Cell) :
    reachable (CellOutput_init json c)
| reach_set_json (o : CellOutput) (json : OutputJson) :
    reachable o -> reachable (CellOutput_set_json o json)
| reach_container (o : CellOutput) :
    reachable o -> reachable (snd (container o)).

(** The [CellOutput] objects live in a store and are named by their position
    in it; a new object goes to the end, and no object is ever removed. *)
Abbreviation addr := nat.
Abbreviation store := (list CellOutput).

(** A [CellOutputArea] object; [area_children] is [container.children]. *)
Record CellOutputArea : Type := mkCellOutputArea {
  area_cell : Cell;
  area_rendered_outputs : list addr;
  area_json : list OutputJson;
  area_children : list Element
}.

(** What holds of an area and the store between two calls: the outputs are
    distinct objects of the store, one for each record of the JSON list. *)
Definition area_wf (self : CellOutputArea) (h : store) : Prop :=
  NoDup (area_rendered_outputs self) /\
  Forall (fun a => (a < length h)%nat) (area_rendered_outputs self) /\
  length (area_rendered_outputs self) = length (area_json self).

(** The loop of the [rendered_outputs] property, from position [i] of the
    JSON list on: the outputs appended, and the store afterwards. *)
Fixpoint reconcile (c : Cell) (existing : list addr) (i : nat)
    (json : list OutputJson) (h : store) : list addr * store :=
  match json with
  | [] => ([], h)
  | output_json :: json' =>
      let '(output, h1) :=
        match existing !! i with
        | Some a =>
            (a, alter (fun o => CellOutput_set_json o output_json) a h)
        | None =>
            (length h, h ++ [CellOutput_init output_json c])
        end in
      let '(outs, h2) := reconcile c existing (S i) json' h1 in
      (output :: outs, h2)
  end.

(** [[to_container(x) for x in rendered_outputs]]: each call reads the
    [container] property of the object.  An address outside the store does
    not occur, addresses being made by allocation only. *)
Fixpoint to_containers (outs : list addr) (h : store)
  : result (list Element) * store :=
  match outs with
  | [] => (Ok [], h)
  | a :: outs' =>
      match h !! a with
      | None => (Raise KeyError, h)
      | Some o =>
          let '(r, o') := container o in
          let h1 := <[a := o']> h in
          match r with
          | Raise e => (Raise e, h1)
          | Ok element =>
              let '(rs, h2) := to_containers outs' h1 in
              (match rs with
               | Ok elements => Ok (element :: elements)
               | Raise e => Raise e
               end, h2)
          end
      end
  end.

(** What a method of the area leaves behind: its result, the area and the
    store. *)
Record outcome (A : Type) : Type := mkOutcome {
  returned : result A;
  area_after : CellOutputArea;
  store_after : store
}.
Arguments mkOutcome {A} _ _ _.
Arguments returned {A} _.
Arguments area_after {A} _.
Arguments store_after {A} _.

(** The [rendered_outputs] property of the area. *)
Definition rendered_outputs (self : CellOutputArea) (h : store)
  : outcome (list Element) :=
  let '(outs, h1) :=
    reconcile (area_cell self) (area_rendered_outputs self) 0
      (area_json self) h in
  let self1 :=
    {| area_cell := area_cell self;
       area_rendered_outputs := outs;
       area_json := area_json self;
       area_children := area_children self |} in
  let '(r, h2) := to_containers outs h1 in
  mkOutcome r self1 h2.

(** The setter of the area's [json] property. *)
Definition CellOutputArea_set_json (self : CellOutputArea)
    (outputs_json : list OutputJson) (h : store) : outcome unit :=
  let self1 :=
    {| area_cell := area_cell self;
       area_rendered_outputs := area_rendered_outputs self;
       area_json := outputs_json;
       area_children := area_children self |} in
  let o := rendered_outputs self1 h in
  match returned o with
  | Ok children =>
      mkOutcome (Ok tt)
        {| area_cell := area_cell (area_after o);
           area_rendered_outputs := area_rendered_outputs (area_after o);
           area_json := area_json (area_after o);
           area_children := children |}
        (store_after o)
  | Raise e => mkOutcome (Raise e) (area_after o) (store_after o)
  end.

(** [CellOutputArea.__init__]. *)
Definition CellOutputArea_init (json : list OutputJson) (c : Cell) (h : store)
  : outcome unit :=
  CellOutputArea_set_json
    {| area_cell := c;
       area_rendered_outputs := [];
       area_json := [];
       area_children := [] |}
    json h.

End CellOutputs.

(** ** widgets/layout.py *)

Module Layout.
Import Py.

(** A callback, by identity; calling it is recorded, what it does is the
    caller's. *)
Definition Callable : Type := nat.

(** Formatted text: fragments of a style and a text, the text a sequence of
    code points. *)
Definition text : Type := list N.
Definition fragment : Type := (string * text)%type.
Definition StyleAndTextTuples : Type := list fragment.

(** [c * n] for a one-character string [c]: empty when [n] is not positive. *)
Definition times (c : N) (n : Z) : text := repeat c (Z.to_nat n).

(** The glyphs of the tab bar: [char_bottom] and [char_top] are U+2581,
    [char_left] U+258F, [char_right] U+2595, [char_close] U+2716. *)
Definition char_bottom : N := 9601%N.
Definition char_left : N := 9615%N.
Definition char_right : N := 9621%N.
Definition char_top : N := 9601%N.
Definition char_close : N := 10006%N.
Definition char_space : N := 32%N.

(** [class Tab(NamedTuple)]; [title] holds [to_formatted_text(tab.title)]. *)
Record Tab : Type := mkTab {
  title : StyleAndTextTuples;
  on_activate : Callable;
  on_deactivate : option Callable;
  on_close : option Callable
}.

(** A [TabControl] object.  [mouse_handlers] is never cleared: a render
    overwrites the columns it reaches and leaves the others. *)
Record TabControl : Type := mkTabControl {
  tabs : list Tab;
  spacing : Z;
  closeable : bool;
  active : Z;
  mouse_handlers : gmap Z (option Callable)
}.

(** [TabControl.__init__]. *)
Definition TabControl_init (tabs : list Tab) (active : Z) (spacing : Z)
    (closeable : bool) : TabControl :=
  {| tabs := tabs;
     spacing := spacing;
     closeable := closeable;
     active := active;
     mouse_handlers := ∅ |}.

Definition preferred_width (self : TabControl) (max_available_width : Z)
  : option Z := Some max_available_width.

Definition preferred_height (self : TabControl) : option Z := Some 2.

(** What [render] carries from one statement to the next: the two lines, the
    column [i] and the hit map. *)
Record RenderState : Type := mkRenderState {
  top_line : StyleAndTextTuples;
  tab_line : StyleAndTextTuples;
  column : Z;
  handlers : gmap Z (option Callable)
}.

Section Render.

(** The terminal width of a character, [prompt_toolkit.utils.get_cwidth]. *)
Variable get_cwidth : N -> Z.

Definition text_width (t : text) : Z :=
  fold_right (fun c acc => get_cwidth c + acc) 0 t.

(** [prompt_toolkit]'s [fragment_list_width]: the widths of all characters of
    all fragments whose style does not hold the zero-width-escape marker. *)
Fixpoint fragment_list_width (fragments : StyleAndTextTuples) : Z :=
  match fragments with
  | [] => 0
  | (style, t) :: fragments' =>
      (if str_in "[ZeroWidthEscape]" style then 0 else text_width t)
      + fragment_list_width fragments'
  end.

(** [for _ in range(n)] over the two spacing statements, with [i += 1] in the
    loop after a tab and without it in the initial one. *)
Fixpoint add_spacing (n : nat) (step : Z) (st : RenderState) : RenderState :=
  match n with
  | O => st
  | S n' =>
      add_spacing n' step
        {| top_line := top_line st ++ [("", [char_space])];
           tab_line := tab_line st ++ [("class:border,bottom", [char_bottom])];
           column := column st + step;
           handlers := handlers st |}
  end.

(** [for _ in range(n): self.mouse_handlers[i] = cb; i += 1]. *)
Fixpoint mark (n : nat) (cb : option Callable) (i : Z)
    (mh : gmap Z (option Callable)) : Z * gmap Z (option Callable) :=
  match n with
  | O => (i, mh)
  | S n' => mark n' cb (i + 1) (<[i := cb]> mh)
  end.

(** The body of [for j, tab in enumerate(self.tabs)]. *)
Definition render_tab (self : TabControl) (j : Z) (tab : Tab)
    (st : RenderState) : RenderState :=
  let title_ft := title tab in
  let title_width := fragment_list_width title_ft in
  let style :=
    if active self =? j then "class:active" else "class:inactive" in
  (* Add top edge over title *)
  let top1 :=
    top_line st
    ++ [((style ++ " class:tab,border,top")%string,
         times char_top (title_width + 2))] in
  (* Left edge *)
  let tab1 :=
    tab_line st ++ [((style ++ " class:tab,border,left")%string, [char_left])] in
  let mh1 := <[column st := Some (on_activate tab)]> (handlers st) in
  let i1 := column st + 1 in
  (* Title *)
  let tab2 :=
    tab1
    ++ map (fun f : fragment =>
              ((style ++ " class:tab,title " ++ fst f)%string, snd f))
         title_ft in
  let '(i2, mh2) :=
    mark (Z.to_nat title_width) (Some (on_activate tab)) i1 mh1 in
  (* Close button *)
  let '(top3, tab3, i3, mh3) :=
    if closeable self then
      (top1 ++ [((style ++ " class:tab,border,top")%string, times char_top 2)],
       tab2 ++ [("", [char_space]);
                ((style ++ " class:tab,close")%string, [char_close])],
       i2 + 2,
       <[i2 + 1 := on_close tab]> (<[i2 := Some (on_activate tab)]> mh2))
    else (top1, tab2, i2, mh2) in
  (* Right edge *)
  let tab4 :=
    tab3 ++ [((style ++ " class:tab,border,right")%string, [char_right])] in
  let mh4 := <[i3 := Some (on_activate tab)]> mh3 in
  let i4 := i3 + 1 in
  (* Spacing *)
  add_spacing (Z.to_nat (spacing self)) 1
    {| top_line := top3; tab_line := tab4; column := i4; handlers := mh4 |}.

Fixpoint render_tabs (self : TabControl) (j : Z) (ts : list Tab)
    (st : RenderState) : RenderState :=
  match ts with
  | [] => st
  | tab :: ts' => render_tabs self (j + 1) ts' (render_tab self j tab st)
  end.

(** The state of [render] when the loop over the tabs has ended, before the
    border that fills the width is added.  It does not depend on [width]. *)
Definition render_content (self : TabControl) : RenderState :=
  let st0 :=
    add_spacing (Z.to_nat (spacing self)) 0
      {| top_line := []; tab_line := []; column := 0;
         handlers := mouse_handlers self |} in
  let st1 :=
    {| top_line := top_line st0; tab_line := tab_line st0;
       column := column st0 + spacing self; handlers := handlers st0 |} in
  render_tabs self 0 (tabs self) st1.

(** [TabControl.render]: the two lines, and the control with the hit map the
    rendering left. *)
Definition render (self : TabControl) (width : Z)
  : list StyleAndTextTuples * TabControl :=
  let st := render_content self in
  (* Add border to fill width *)
  let tab_line' :=
    tab_line st
    ++ [("class:border,bottom",
         times char_bottom (width - fragment_list_width (tab_line st)))] in
  ([top_line st; tab_line'],
   {| tabs := tabs self;
      spacing := spacing self;
      closeable := closeable self;
      active := active self;
      mouse_handlers := handlers st |}).

(** The columns that the tab row needs, counted from the tabs without
    rendering them: the initial spacing, then for every tab its two edges,
    its title, its close button if any, and the spacing after it.  Used to
    state how wide the rendered row is. *)
Definition spacing_width (self : TabControl) : Z :=
  Z.of_nat (Z.to_nat (spacing self)) * get_cwidth char_bottom.

Definition tab_width (self : TabControl) (tab : Tab) : Z :=
  get_cwidth char_left
  + fragment_list_width (title tab)
  + (if closeable self then get_cwidth char_space + get_cwidth char_close
     else 0)
  + get_cwidth char_right
  + spacing_width self.

Definition content_width (self : TabControl) : Z :=
  spacing_width self
  + fold_right (fun tab acc => tab_width self tab + acc) 0 (tabs self).

End Render.

(** Mouse events, [prompt_toolkit.mouse_events]. *)
Inductive MouseEventType : Type :=
| MOUSE_UP
| MOUSE_DOWN
| SCROLL_UP
| SCROLL_DOWN
| MOUSE_MOVE.

Record MouseEvent : Type := mkMouseEvent {
  position_x : Z;
  position_y : Z;
  event_type : MouseEventType
}.

(** What a mouse handler returns: [None] or [NotImplemented]. *)
Inductive handled : Type :=
| ReturnNone
| NotImplemented.

Definition is_mouse_up (t : MouseEventType) : bool :=
  match t with MOUSE_UP => true | _ => false end.

(** The statements both scroll branches run once [index] is computed: the
    callbacks called, in order, and how the handler ends.  A callable is
    truthy and [callable]; [None] is neither. *)
Definition switch_tab (self : TabControl) (index : Z)
  : list Callable * result handled :=
  if negb (index =? active self) then
    match Py.index (tabs self) (active self) with
    | Raise e => ([], Raise e)
    | Ok old =>
        let called :=
          match on_deactivate old with
          | Some deactivate => [deactivate]
          | None => []
          end in
        match Py.index (tabs self) index with
        | Raise e => (called, Raise e)
        | Ok new => (called ++ [on_activate new], Ok ReturnNone)
        end
    end
  else ([], Ok NotImplemented).

(** [TabControl.mouse_handler]. *)
Definition mouse_handler (self : TabControl) (mouse_event : MouseEvent)
  : list Callable * result handled :=
  let row := position_y mouse_event in
  let col := position_x mouse_event in
  let clicked :=
    if (row =? 1) && is_mouse_up (event_type mouse_event)
    then mouse_handlers self !! col
    else None in
  match clicked with
  | Some (Some handler) => ([handler], Ok ReturnNone)
  | _ =>
      match event_type mouse_event with
      | SCROLL_UP => switch_tab self (Z.max (active self - 1) 0)
      | SCROLL_DOWN =>
          switch_tab self
            (Z.max (active self + 1) (Z.of_nat (length (tabs self))))
      | _ => ([], Ok NotImplemented)
      end
  end.

(** A child container, by identity. *)
Definition Container : Type := nat.

(** A [StackedSplit] object: the fields its constructor and the setters of
    [active], [children] and [titles] touch. *)
Record StackedSplit : Type := mkStackedSplit {
  _children : list Container;
  _titles : list StyleAndTextTuples;
  _active : option Z
}.

(** What the [active] setter does besides storing the index. *)
Inductive effect : Type :=
| Refresh
| FireOnChange
| Focus (child : Container).

(** [StackedSplit.__init__]; [load_container] is the subclass's. *)
Definition StackedSplit_init (children : list Container)
    (titles : list StyleAndTextTuples) (active : Z) : StackedSplit :=
  {| _children := children;
     _titles := titles;
     _active := Some active |}.

Definition StackedSplit_active (self : StackedSplit) : option Z := _active self.

Definition children (self : StackedSplit) : list Container := _children self.

Definition option_Z_eqb (a b : option Z) : bool :=
  match a, b with
  | Some x, Some y => x =? y
  | None, None => true
  | _, _ => false
  end.

(** The setter of [active]: the split afterwards, the effects in order, and
    how the setter ends.  [Focus child] is the call of [layout.focus], whose
    [ValueError] the setter swallows; the [IndexError] of
    [self.children[value]] is not a [ValueError] and passes through. *)
Definition set_active (self : StackedSplit) (value : option Z)
  : StackedSplit * list effect * result unit :=
  let value :=
    match value with
    | Some v => Some (Z.max 0 (Z.min v (Z.of_nat (length (children self)))))
    | None => None
    end in
  if negb (option_Z_eqb value (_active self)) then
    let self' :=
      {| _children := _children self;
         _titles := _titles self;
         _active := value |} in
    match value with
    | Some v =>
        match Py.index (children self') v with
        | Ok child => (self', [Refresh; FireOnChange; Focus child], Ok tt)
        | Raise e => (self', [Refresh; FireOnChange], Raise e)
        end
    | None => (self', [Refresh; FireOnChange], Ok tt)
    end
  else (self, [], Ok tt).

End Layout.

(** ** app/tui.py *)

Module Tui.
Import Py.

Definition Callable : Type := nat.

(** A control of the layout, by identity. *)
Definition Control : Type := nat.

(** An attribute of an object: callable or not. *)
Inductive attr : Type :=
| Method
| Value.

Definition callable (a : attr) : bool :=
  match a with Method => true | Value => false end.

(** A tab object: its identity and its attributes by name.  A tab is truthy,
    as every object whose class defines neither [__bool__] nor [__len__]. *)
Record Tab : Type := mkTab {
  tab_id : nat;
  tab_attrs : gmap string attr
}.

(** A [Float] of [root_container.floats], by identity, with the controls of
    the dialog it holds. *)
Record Float : Type := mkFloat {
  float_id : nat;
  float_controls : list Control
}.

(** The part of a [TuiApp] that [dialog], [exit] and [tab_op] read and
    write.  [tab] is the inherited property naming the current tab;
    [layout_controls] are the controls of the layout outside the floats;
    [next_float] is the identity the next [Float] object gets. *)
Record TuiApp : Type := mkTuiApp {
  tabs : list Tab;
  tab : option Tab;
  floats : list Float;
  layout_controls : list Control;
  current_control : Control;
  next_float : nat
}.

(** *** [dialog] *)

Section Dialog.

(** [UIControl.is_focusable]. *)
Variable is_focusable : Control -> bool.

Definition set_floats (self : TuiApp) (fs : list Float) : TuiApp :=
  {| tabs := tabs self;
     tab := tab self;
     floats := fs;
     layout_controls := layout_controls self;
     current_control := current_control self;
     next_float := next_float self |}.

Definition set_current_control (self : TuiApp) (c : Control) : TuiApp :=
  {| tabs := tabs self;
     tab := tab self;
     floats := floats self;
     layout_controls := layout_controls self;
     current_control := c;
     next_float := next_float self |}.

(** [layout.find_all_controls()]: the controls of every window found by
    walking the root container, the floats included. *)
Definition find_all_controls (self : TuiApp) : list Control :=
  layout_controls self ++ flat_map float_controls (floats self).

Definition control_in (c : Control) (cs : list Control) : bool :=
  existsb (Nat.eqb c) cs.

(** [layout.focus(control)]: [ValueError] unless the control is in the
    layout and focusable. *)
Definition layout_focus (self : TuiApp) (c : Control) : result TuiApp :=
  if control_in c (find_all_controls self) && is_focusable c
  then Ok (set_current_control self c)
  else Raise ValueError.

(** The closure [inner] that [_make_handler(cb)] returns: the variables it
    closes over. *)
Record handler : Type := mkHandler {
  handler_dialog : nat;
  handler_focused : Control;
  handler_cb : option Callable
}.

(** [floats.remove(dialog)]: the first occurrence is removed, [ValueError]
    when there is none. *)
Fixpoint remove_float (d : nat) (fs : list Float) : result (list Float) :=
  match fs with
  | [] => Raise ValueError
  | f :: fs' =>
      if Nat.eqb (float_id f) d then Ok fs'
      else match remove_float d fs' with
           | Ok r => Ok (f :: r)
           | Raise e => Raise e
           end
  end.

(** Calling [inner()]: the application afterwards, the callbacks called and
    how the call ends. *)
Definition run_handler (h : handler) (self : TuiApp)
  : TuiApp * list Callable * result unit :=
  match remove_float (handler_dialog h) (floats self) with
  | Raise e => (self, [], Raise e)
  | Ok fs =>
      let self1 := set_floats self fs in
      let self2 :=
        if control_in (handler_focused h) (find_all_controls self1) then
          match layout_focus self1 (handler_focused h) with
          | Ok s => s
          | Raise _ => self1
          end
        else self1 in
      match handler_cb h with
      | Some cb => (self2, [cb], Ok tt)
      | None => (self2, [], Ok tt)
      end
  end.

(** A button as [dialog] is given it, together with the control of the
    [Button] widget built for it. *)
Record button : Type := mkButton {
  button_text : string;
  button_cb : option Callable;
  button_control : Control
}.

(** [TuiApp.dialog]; [body] are the controls of the body container, and
    [to_focus] the control that focusing the given container selects.  The
    handlers returned are those of the buttons, in order. *)
Definition dialog (self : TuiApp) (body : list Control)
    (buttons : list button) (to_focus : option Control)
  : TuiApp * list handler * result unit :=
  let focused := current_control self in
  let d := next_float self in
  let handlers :=
    map (fun b => mkHandler d focused (button_cb b)) buttons in
  let fl :=
    {| float_id := d;
       float_controls := body ++ map button_control buttons |} in
  let self1 :=
    {| tabs := tabs self;
       tab := tab self;
       floats := fl :: floats self;
       layout_controls := layout_controls self;
       current_control := current_control self;
       next_float := S (next_float self) |} in
  let target :=
    match to_focus with
    | Some c => Ok c
    | None =>
        match buttons with
        | [] => Raise IndexError
        | b :: _ => Ok (button_control b)
        end
    end in
  match target with
  | Raise e => (self1, handlers, Raise e)
  | Ok c =>
      match layout_focus self1 c with
      | Ok self2 => (self2, handlers, Ok tt)
      | Raise e => (self1, handlers, Raise e)
      end
  end.

End Dialog.

(** *** [exit] *)

(** What the exit chain does, as seen from outside. *)
Inductive event : Type :=
| CloseRequested (t : Tab)
| CleanedUp (t : Tab)
| ReallyClose.

(** What is seen of a tab whose close completes: it is asked to close, and
    it is cleaned up by the callback it was given. *)
Definition closed (u : Tab) : list event := [CloseRequested u; CleanedUp u].

(** The callbacks [exit] builds: [final_cb], and [create_cb(close_tab,
    cleanup_tab, cb)], whose [inner] closes over its three arguments. *)
Inductive callback : Type :=
| final_cb
| create_cb (close_tab cleanup_tab : Tab) (cb : callback).

Section Exit.

(** Whether the close of a tab completes; it does not when the user cancels
    it. *)
Variable closes : Tab -> bool.

(** The inherited [cleanup_closed_tab] of [EuporieApp], which is not among
    these sources, by what it leaves of the application. *)
Variable cleanup_closed_tab : TuiApp -> Tab -> TuiApp.

(** Modelled from the spec: [Tab.close(cb)] of [euporie.tab], which is not
    among these sources.  The close of a tab either completes, and then the
    tab calls [cb], or it is cancelled by the user, and then [cb] is never
    called. *)
Definition Tab_close (t : Tab)
    (cb : TuiApp -> TuiApp * list event * result unit) (self : TuiApp)
  : TuiApp * list event * result unit :=
  if closes t then
    let '(self1, evs, r) := cb self in
    (self1, CloseRequested t :: evs, r)
  else (self, [CloseRequested t], Ok tt).

(** Calling a callback of the chain. *)
Fixpoint run_cb (cb : callback) (self : TuiApp)
  : TuiApp * list event * result unit :=
  match cb with
  | final_cb =>
      match Py.index (tabs self) 0 with
      | Raise e => (self, [], Raise e)
      | Ok t => (cleanup_closed_tab self t, [CleanedUp t; ReallyClose], Ok tt)
      end
  | create_cb close_tab cleanup_tab cb' =>
      let self1 := cleanup_closed_tab self cleanup_tab in
      let '(self2, evs, r) := Tab_close close_tab (run_cb cb') self1 in
      (self2, CleanedUp cleanup_tab :: evs, r)
  end.

(** [for close_tab, cleanup_tab in zip(self.tabs, self.tabs[1:]): cb =
    create_cb(close_tab, cleanup_tab, cb)]. *)
Definition chain (ts : list Tab) : callback :=
  fold_left (fun cb p => create_cb (fst p) (snd p) cb)
    (combine ts (tl ts)) final_cb.

(** The chain as it is nested, read off the tabs from the last to the first:
    the outermost callback cleans up the last tab and closes the one before
    it.  [chain_of_rev] proves that this is what the loop builds. *)
Fixpoint chain_rev (rts : list Tab) : callback :=
  match rts with
  | cleanup_tab :: rts' =>
      match rts' with
      | close_tab :: _ => create_cb close_tab cleanup_tab (chain_rev rts')
      | [] => final_cb
      end
  | [] => final_cb
  end.

(** [TuiApp.exit]. *)
Definition exit (self : TuiApp) : TuiApp * list event * result unit :=
  match tabs self with
  | [] => (self, [ReallyClose], Ok tt)
  | _ :: _ =>
      let cb := chain (tabs self) in
      match Py.index (tabs self) (-1) with
      | Raise e => (self, [], Raise e)
      | Ok t => Tab_close t (run_cb cb) self
      end
  end.

End Exit.

(** *** [tab_op] *)

(** On whom a method was called. *)
Inductive receiver : Type :=
| OnTab (id : nat)
| OnNone.

Section TabOp.

(** [getattr(None, name)]: the attributes of the [None] object. *)
Variable none_attr : string -> option attr.

Definition hasattr (t : Tab) (name : string) : bool :=
  match tab_attrs t !! name with
  | Some _ => true
  | None => false
  end.

(** [getattr(obj, name)] for a tab or [None], with the object it binds to. *)
Definition getattr (obj : option Tab) (name : string)
  : result (receiver * attr) :=
  match obj with
  | Some t =>
      match tab_attrs t !! name with
      | Some a => Ok (OnTab (tab_id t), a)
      | None => Raise AttributeError
      end
  | None =>
      match none_attr name with
      | Some a => Ok (OnNone, a)
      | None => Raise AttributeError
      end
  end.

(** [TuiApp.tab_op]: the calls made, each with its receiver and the name of
    the operation, and how the method ends.  [args] and [kwargs] are passed
    on as they are. *)
Definition tab_op (self : TuiApp) (operation : string) (t : option Tab)
  : list (receiver * string) * result unit :=
  let t :=
    match t with
    | None => tab self
    | Some _ => t
    end in
  match t with
  | Some t' =>
      if hasattr t' operation then
        match getattr (tab self) operation with
        | Raise e => ([], Raise e)
        | Ok (r, func) =>
            if callable func then ([(r, operation)], Ok tt)
            else ([], Ok tt)
        end
      else ([], Ok tt)
  | None => ([], Ok tt)
  end.

End TabOp.

End Tui.

(** ** widgets/layout.py: the hit map, and the splits built on [StackedSplit] *)

Module Splits.
Import Py Layout.

Section Columns.

Variable get_cwidth : N -> Z.

(** The columns that [render] counts for a tab in its variable [i], which
    indexes the hit map: one for the left edge, one for every column of the
    title, two for the close button if there is one, one for the right edge;
    and the columns from the start of a tab to the start of the next, with
    the spacing.  Used to state where the hit map has its entries. *)
Definition tab_span (self : TabControl) (tab : Tab) : Z :=
  1 + Z.of_nat (Z.to_nat (fragment_list_width get_cwidth (title tab)))
  + (if closeable self then 2 else 0) + 1.

Definition tab_step (self : TabControl) (tab : Tab) : Z :=
  tab_span self tab + Z.of_nat (Z.to_nat (spacing self)).

(** The column at which the tab at position [j] starts. *)
Definition tab_start (self : TabControl) (j : nat) : Z :=
  spacing self
  + fold_right (fun tab acc => tab_step self tab + acc) 0
      (take j (tabs self)).

(** What the hit map holds at the column [o] of a tab, counted from the
    tab's start: the close callback under the close glyph, the activate
    callback everywhere else. *)
Definition tab_handler (self : TabControl) (tab : Tab) (o : Z)
  : option Callable :=
  if closeable self && (o =? tab_span self tab - 2)
  then on_close tab
  else Some (on_activate tab).

End Columns.

(** *** [StackedSplit]: the other members *)

(** The setters of [children] and [titles]: the list is replaced and
    [refresh] is called; the active index is left as it is. *)
Definition set_children (self : StackedSplit) (value : list Container)
  : StackedSplit * list effect :=
  ({| _children := value; _titles := _titles self; _active := _active self |},
   [Refresh]).

Definition set_titles (self : StackedSplit)
    (value : list StyleAndTextTuples) : StackedSplit * list effect :=
  ({| _children := _children self; _titles := value;
      _active := _active self |},
   [Refresh]).

(** How [active_child] ends: with the child, with the [IndexError] of a list
    index out of range, or with the [TypeError] of the index [None]. *)
Inductive child_outcome : Type :=
| Child (c : Container)
| ChildIndexError
| ChildTypeError.

(** [active_child]: [self.children[self.active]]. *)
Definition active_child (self : StackedSplit) : child_outcome :=
  match StackedSplit_active self with
  | None => ChildTypeError
  | Some i =>
      match Py.index (children self) i with
      | Ok c => Child c
      | Raise _ => ChildIndexError
      end
  end.

(** *** [AccordionSplit] *)

(** [AccordionSplit.toggle]. *)
Definition toggle (self : StackedSplit) (index : Z)
  : StackedSplit * list effect * result unit :=
  set_active self
    (if negb (option_Z_eqb (StackedSplit_active self) (Some index))
     then Some index else None).

(** [AccordionSplit.mouse_handler]: only a mouse-up toggles. *)
Definition accordion_mouse_handler (self : StackedSplit) (index : Z)
    (mouse_event : MouseEvent) : StackedSplit * list effect * result unit :=
  if is_mouse_up (event_type mouse_event) then toggle self index
  else (self, [], Ok tt).

(** *** [TabbedSplit] *)

(** A [TabbedSplit] object: the fields of the base class and the tab bar. *)
Record TabbedSplit : Type := mkTabbedSplit {
  split : StackedSplit;
  control : TabControl
}.

(** [enumerate(titles)] from position [i] on, for [load_tabs].  The
    callable [i] stands for [partial(setattr, self, "active", i)]. *)
Fixpoint tabs_from (i : nat) (titles : list StyleAndTextTuples) : list Tab :=
  match titles with
  | [] => []
  | t :: titles' =>
      {| title := t; on_activate := i; on_deactivate := None;
         on_close := None |} :: tabs_from (S i) titles'
  end.

(** [TabbedSplit.load_tabs]. *)
Definition load_tabs (s : StackedSplit) : list Tab := tabs_from 0 (_titles s).

(** [self.active or 0]. *)
Definition active_or_0 (a : option Z) : Z :=
  match a with
  | Some i => i
  | None => 0
  end.

(** [TabbedSplit.__init__]: the base constructor, whose last statement is
    [load_container], which makes the tab bar. *)
Definition TabbedSplit_init (children : list Container)
    (titles : list StyleAndTextTuples) (active : Z) : TabbedSplit :=
  let s := StackedSplit_init children titles active in
  {| split := s;
     control :=
       TabControl_init (load_tabs s) (active_or_0 (StackedSplit_active s))
         1 false |}.

(** [TabbedSplit.refresh]. *)
Definition refresh (self : TabbedSplit) : TabbedSplit :=
  let c := control self in
  {| split := split self;
     control :=
       {| tabs := load_tabs (split self);
          spacing := spacing c;
          closeable := closeable c;
          active :=
            match StackedSplit_active (split self) with
            | Some i => i
            | None => active c
            end;
          mouse_handlers := mouse_handlers c |} |}.

Definition is_refresh (e : effect) : bool :=
  match e with Refresh => true | _ => false end.

(** The setter of [active] on a [TabbedSplit]: the setter of the base
    class, whose call of [self.refresh()] runs [TabbedSplit.refresh]. *)
Definition tabbed_set_active (self : TabbedSplit) (value : option Z)
  : TabbedSplit * list effect * result unit :=
  let '(s, effects, r) := set_active (split self) value in
  let self' := {| split := s; control := control self |} in
  (if existsb is_refresh effects then refresh self' else self', effects, r).

(** The setters of [children] and [titles] on a [TabbedSplit]. *)
Definition tabbed_set_children (self : TabbedSplit) (value : list Container)
  : TabbedSplit :=
  refresh {| split := fst (set_children (split self) value);
             control := control self |}.

Definition tabbed_set_titles (self : TabbedSplit)
    (value : list StyleAndTextTuples) : TabbedSplit :=
  refresh {| split := fst (set_titles (split self) value);
             control := control self |}.

(** The tab bar shows the split: its tabs are the ones [load_tabs] makes
    from the titles, it has no close buttons, and its active index is the
    one of the split unless that is [None]. *)
Definition synced (self : TabbedSplit) : Prop :=
  tabs (control self) = load_tabs (split self) /\
  closeable (control self) = false /\
  forall i : Z,
    StackedSplit_active (split self) = Some i -> active (control self) = i.

(** Calling the activate callback [k] of a tab of the split. *)
Definition call_activate (self : TabbedSplit) (k : Callable)
  : TabbedSplit * list effect * result unit :=
  tabbed_set_active self (Some (Z.of_nat k)).

End Splits.

From Stdlib Require Import Sorting.Sorted.

(** ** widgets/layout.py: [ConditionalSplit] *)

Module Conditional.
Import Py.

(** The two containers that [load_container] makes, by identity. *)
Inductive split_container : Type :=
| HSplit (id : nat)
| VSplit (id : nat).

(** A [ConditionalSplit] object: the fields of its [SimpleCache], the
    dictionary [_data] and the queue [_keys], whose keys are the values of
    the filter, and the identity the next container gets.  [maxsize] is the
    2 that the constructor passes. *)
Record ConditionalSplit : Type := mkConditionalSplit {
  _data : gmap bool split_container;
  _keys : list bool;
  next_id : nat
}.

Definition maxsize : nat := 2.

(** [ConditionalSplit.__init__]. *)
Definition ConditionalSplit_init : ConditionalSplit :=
  {| _data := ∅; _keys := []; next_id := 0 |}.

(** [ConditionalSplit.load_container]: a horizontal split when [vertical]
    is true, a vertical split otherwise. *)
Definition load_container (vertical : bool) (id : nat) : split_container :=
  if vertical then HSplit id else VSplit id.

(** [SimpleCache.get(key, getter_func)] of [prompt_toolkit.cache], with the
    getter [partial(self.load_container, vertical)]: the value cached for the
    key, or else a new value, which is stored; when the dictionary then has
    more than [maxsize] keys, the oldest key is taken from the queue and
    deleted from the dictionary if it is there. *)
Definition cache_get (self : ConditionalSplit) (key : bool)
  : split_container * ConditionalSplit :=
  match _data self !! key with
  | Some value => (value, self)
  | None =>
      let value := load_container key (next_id self) in
      let data1 := <[key := value]> (_data self) in
      let keys1 := _keys self ++ [key] in
      if (maxsize <? size data1)%nat then
        match keys1 with
        | key_to_remove :: keys2 =>
            (value,
             {| _data := delete key_to_remove data1; _keys := keys2;
                next_id := S (next_id self) |})
        | [] =>
            (value,
             {| _data := data1; _keys := keys1;
                next_id := S (next_id self) |})
        end
      else
        (value,
         {| _data := data1; _keys := keys1; next_id := S (next_id self) |})
  end.

(** [ConditionalSplit.container], given the value [vertical] that the filter
    has at this call. *)
Definition container (self : ConditionalSplit) (vertical : bool)
  : split_container * ConditionalSplit :=
  cache_get self vertical.

(** The containers returned by a sequence of calls of [container], one for
    each value the filter has in turn, and the object afterwards. *)
Fixpoint containers (self : ConditionalSplit) (verticals : list bool)
  : list split_container * ConditionalSplit :=
  match verticals with
  | [] => ([], self)
  | vertical :: verticals' =>
      let '(c, self1) := container self vertical in
      let '(cs, self2) := containers self1 verticals' in
      (c :: cs, self2)
  end.

End Conditional.

(** ** app/tui.py: the status bar and the log view *)

Module Shell.
Import Py Tui.

Section Status.

(** A field of the status bar that is not a tuple is anything that
    [to_formatted_text] accepts: a string, an [HTML] object, a list of
    fragments.  [truthy] is its truth value, and [to_formatted_text] is the
    function of [prompt_toolkit], given the field and the style. *)
Variable value : Type.
Variable truthy : value -> bool.
Variable to_formatted_text : value -> string -> Layout.StyleAndTextTuples.

(** A field: a fragment tuple, which is not empty and so true, or another
    value. *)
Inductive field : Type :=
| TupleField (f : Layout.fragment)
| OtherField (v : value).

(** [Tab.statusbar_fields] of the current tab, and the two [HTML] objects
    shown when there is no tab. *)
Variable statusbar_fields : Tab -> list field * list field.
Variable html_new_notebook : value.
Variable html_quit : value.

Definition field_truthy (f : field) : bool :=
  match f with
  | TupleField _ => true
  | OtherField v => truthy v
  end.

(** The fragments [ft] of a field. *)
Definition field_text (f : field) : Layout.StyleAndTextTuples :=
  match f with
  | TupleField t => [t]
  | OtherField v => to_formatted_text v "class:status.field"
  end.

Definition space : Layout.text := [Layout.char_space].

(** [entries[0 if part == "left" else 1]]. *)
Definition status_entries (self : TuiApp) (part : string) : list field :=
  let entries :=
    match tab self with
    | Some t => statusbar_fields t
    | None => ([OtherField html_new_notebook], [OtherField html_quit])
    end in
  if String.eqb part "left" then fst entries else snd entries.

(** [TuiApp.format_status]; [List.removelast] is [if output: output.pop()]. *)
Definition format_status (self : TuiApp) (part : string)
  : Layout.StyleAndTextTuples :=
  let output :=
    fold_left
      (fun output f =>
         if field_truthy f then
           output
           ++ [("class:status.field", space)]
           ++ field_text f
           ++ [("class:status.field", space); ("class:status", space)]
         else output)
      (status_entries self part) [] in
  List.removelast output.

(** A field as the bar shows it, with a space on either side; and blocks of
    fragments put one after another with a separator between each two.  Used
    to state what [format_status] returns. *)
Definition padded (f : field) : Layout.StyleAndTextTuples :=
  [("class:status.field", space)] ++ field_text f
  ++ [("class:status.field", space)].

Fixpoint separated (sep : Layout.fragment)
    (blocks : list Layout.StyleAndTextTuples) : Layout.StyleAndTextTuples :=
  match blocks with
  | [] => []
  | [b] => b
  | b :: blocks' => b ++ sep :: separated sep blocks'
  end.

End Status.

Section Logs.

(** [isinstance(tab, LogView)], and the tab that [LogView()] makes when the
    application is in a given state. *)
Variable is_log_view : Tab -> bool.
Variable LogView : TuiApp -> Tab.

(** [TuiApp.help_logs]: the application afterwards and the tab that is
    passed to [layout.focus]. *)
Definition help_logs (self : TuiApp) : TuiApp * Tab :=
  match List.find is_log_view (tabs self) with
  | Some t => (self, t)
  | None =>
      let t := LogView self in
      ({| tabs := tabs self ++ [t];
          tab := tab self;
          floats := floats self;
          layout_controls := layout_controls self;
          current_control := current_control self;
          next_float := next_float self |}, t)
  end.

End Logs.

End Shell.

(** ** preview/app.py *)

Module Preview.

(** The streams [load_output] chooses among. *)
Inductive stream : Type :=
| Stdout
| Stderr
| TemporaryFile
| OpenedFile (path : string).

(** An output file: a stream, or a [PseudoTTY] around one with the value its
    [isatty] returns. *)
Inductive output_file : Type :=
| Plain (s : stream)
| PseudoTTY (underlying : stream) (isatty : bool).

(** How [open(path, "w+")] can fail: with one of the three exceptions that
    [load_output] catches, or with another one. *)
Inductive open_error : Type :=
| FileNotFoundError
| PermissionError
| UnsupportedOperation
| OtherError.

(** The settings [load_output] reads; [config_output_file] is
    [str(config.output_file)], or [None]. *)
Record config : Type := mkConfig {
  page : bool;
  config_output_file : option string;
  color_depth : option Z
}.

(** What [load_output] attaches to the output as [output_file], with
    whether it logged that the file cannot be opened; or the exception that
    passes through it. *)
Inductive loaded : Type :=
| Loaded (f : output_file) (logged_error : bool)
| Failed (e : open_error).

Section LoadOutput.

(** Whether a stream of the process is a terminal, and how opening a path
    for writing ends: [None] when the file is opened. *)
Variable stream_isatty : stream -> bool.
Variable open_w : string -> option open_error.

Definition underlying_stream (f : output_file) : stream :=
  match f with
  | Plain s => s
  | PseudoTTY s _ => s
  end.

(** [output_file.isatty()]. *)
Definition isatty (f : output_file) : bool :=
  match f with
  | Plain s => stream_isatty s
  | PseudoTTY _ b => b
  end.

(** The [try] statement around [open]. *)
Definition open_or_stdout (path : string) : loaded :=
  match open_w path with
  | None => Loaded (Plain (OpenedFile path)) false
  | Some FileNotFoundError | Some PermissionError
  | Some UnsupportedOperation => Loaded (Plain Stdout) true
  | Some OtherError => Failed OtherError
  end.

(** [PreviewApp.load_output], as far as the output file goes. *)
Definition load_output (cfg : config) : loaded :=
  if page cfg then Loaded (PseudoTTY TemporaryFile true) false
  else
    let chosen :=
      match config_output_file cfg with
      | None => Loaded (Plain Stdout) false
      | Some path =>
          if String.eqb path "-" || String.eqb path "/dev/stdout"
          then Loaded (Plain Stdout) false
          else if String.eqb path "/dev/stderr"
          then Loaded (Plain Stderr) false
          else open_or_stdout path
      end in
    match chosen with
    | Failed e => Failed e
    | Loaded f logged =>
        if negb (isatty f)
           && match color_depth cfg with Some _ => true | None => false end
        then Loaded (PseudoTTY (underlying_stream f) true) logged
        else Loaded f logged
    end.

End LoadOutput.

End Preview.

(** * Properties *)

(** ** Python helpers *)

Section PyFacts.
Import Py.

Example path_match_examples :
  path_match "text/plain" "text/*" = true /\
  path_match "image/png" "image/*" = true /\
  path_match "text/plain" "text/html" = false /\
  path_match "stream/stdout" "*" = true /\
  path_match "/" "*" = true /\
  path_match "/a/b" "/a/*" = true /\
  path_match "/a/b" "/*" = false /\
  path_match "" "*" = false /\
  path_match "./." "*" = false.
Proof. repeat split; reflexivity. Qed.

(** The pattern ["*"] matches every name. *)
Lemma fnmatchcase_star (name : string) : fnmatchcase name "*" = true.
Proof.
  induction name as [|c name IH]; [reflexivity|].
  cbn in *. destruct name; cbn in *; auto.
Qed.

Context {A : Type} (key : A -> Z).

Lemma insert_key_not_nil (x : A) (l : list A) : insert_key key x l <> [].
Proof. destruct l as [|y l]; cbn; [easy|]. destruct (key x <=? key y); easy. Qed.

Lemma sorted_nil_inv (l : list A) : sorted key l = [] -> l = [].
Proof.
  destruct l as [|x l]; [easy|]. cbn. intros H.
  now apply insert_key_not_nil in H.
Qed.

(** The head of a stable sort is the first item of least key. *)
Lemma sorted_head (l : list A) (x : A) (rest : list A) :
  sorted key l = x :: rest ->
  exists l1 l2,
    l = l1 ++ x :: l2 /\
    Forall (fun y => key x < key y) l1 /\
    Forall (fun y => key x <= key y) l2.
Proof.
  revert x rest. induction l as [|a l IH]; intros x rest; cbn; [easy|].
  destruct (sorted key l) as [|y r] eqn:E.
  - apply sorted_nil_inv in E. subst l. cbn. intros [= <- <-].
    exists [], []. repeat split; constructor.
  - destruct (IH y r eq_refl) as (m1 & m2 & -> & H1 & H2).
    cbn. destruct (Z.leb_spec (key a) (key y)) as [Hle|Hgt]; intros [= <- <-].
    + exists [], (m1 ++ y :: m2). repeat split; [constructor|].
      apply Forall_app. split.
      * eapply Forall_impl; [exact H1|]. cbn. intros; lia.
      * constructor; [lia|]. eapply Forall_impl; [exact H2|]. cbn. intros; lia.
    + exists (a :: m1), m2. repeat split; [|exact H2].
      constructor; [lia|exact H1].
Qed.

End PyFacts.

(** ** Cell outputs *)

Section CellOutputFacts.
Import Py CellOutputs.

Example rank_examples :
  _calculate_mime_rank ("text/plain", "hello") = 9 /\
  _calculate_mime_rank ("text/plain", String "027"%char "[31mred") = 7 /\
  _calculate_mime_rank ("text/html", "plain") = 10 /\
  _calculate_mime_rank ("text/html", "<b>") = 8 /\
  _calculate_mime_rank ("image/png", "x") = 1 /\
  _calculate_mime_rank ("stream/stderr", "x") = 10 /\
  _calculate_mime_rank ("", "x") = 999.
Proof. repeat split; reflexivity. Qed.

(** Every pattern of the two tables has parts, so [PurePath.match] never
    raises on them. *)
Lemma table_patterns_have_parts :
  Forall (fun p => parts (parse_path p) <> [])
    (MIME_ORDER ++ map fst MIME_RENDERERS).
Proof. repeat constructor; discriminate. Qed.

(** The rank of ["text/plain"] is 7 with the ANSI marker in the payload and 9
    without it. *)
Lemma rank_text_plain (data : string) :
  _calculate_mime_rank ("text/plain", data)
  = if str_in ansi_marker data then 7 else 9.
Proof.
  unfold _calculate_mime_rank, MIME_ORDER. cbn [rank_from].
  set (b := str_in ansi_marker data). set (c := str_in "<" data).
  clearbody b c. destruct b, c; reflexivity.
Qed.

(** C5, as the code has it: for the fixed preference table, the rank of
    ["text/plain"] with a payload that holds no ANSI escape marker is 9, with
    a payload that holds one it is 7, so the first is exactly 2 positions
    greater than the second. *)
Theorem text_plain_rank_gap (payload payload' : string) :
  str_in ansi_marker payload = false ->
  str_in ansi_marker payload' = true ->
  _calculate_mime_rank ("text/plain", payload) = 9 /\
  _calculate_mime_rank ("text/plain", payload') = 7 /\
  _calculate_mime_rank ("text/plain", payload)
  = _calculate_mime_rank ("text/plain", payload') + 2.
Proof.
  intros H H'. rewrite !rank_text_plain, H, H'. repeat split.
Qed.

Lemma text_plain_rank_gap_witness :
  _calculate_mime_rank ("text/plain", "hello") = 9 /\
  _calculate_mime_rank ("text/plain", String "027"%char "[0m") = 7 /\
  _calculate_mime_rank ("text/plain", "hello")
  = _calculate_mime_rank ("text/plain", String "027"%char "[0m") + 2.
Proof.
  apply (text_plain_rank_gap "hello" (String "027"%char "[0m"));
    reflexivity.
Defined.

(** C5 as stated fails: the two ranks differ by 2, not by 3. *)
Lemma text_plain_rank_gap_is_not_three :
  str_in ansi_marker "hello" = false /\
  str_in ansi_marker (String "027"%char "[0m") = true /\
  _calculate_mime_rank ("text/plain", "hello")
  <> _calculate_mime_rank ("text/plain", String "027"%char "[0m") + 3.
Proof. repeat split; vm_compute; discriminate. Qed.

(** *** The renderer registry *)

(** A MIME type whose path has a part matches the wildcard. *)
Lemma wildcard_matches (mime : string) :
  parts (parse_path mime) <> [] -> path_match mime "*" = true.
Proof.
  intros Hparts. unfold path_match.
  change (parse_path "*") with {| root := ""; parts := ["*"] |}.
  cbn -[fnmatchcase].
  destruct (parts (parse_path mime)) as [|p ps _] using rev_ind; [easy|].
  rewrite length_app, rev_app_distr. cbn -[fnmatchcase].
  rewrite fnmatchcase_star.
  replace (length ps + 1)%nat with (S (length ps)) by lia.
  destruct (rev ps); reflexivity.
Qed.





(** C8 at a failing input: an output whose data mapping has the key [""].
    The key is selected, its path has no part, so neither the widget pattern
    nor the wildcard matches it, and [container] ends in the lookup after the
    loop, which raises [KeyError]. *)
Theorem container_of_empty_mime_raises :
  let json :=
    {| json_output_type := Some "display_data";
       json_name := None;
       json_text := None;
       json_traceback := None;
       json_data := Some [("", "x")];
       json_metadata := Some [] |} in
  let self := CellOutput_init json 0%nat in
  selected_mime self = Ok "" /\
  Forall (fun r => path_match "" (fst r) = false) MIME_RENDERERS /\
  container self = (Raise KeyError, self).
Proof. cbv zeta. repeat split; repeat constructor. Qed.

(** *** One output *)

Lemma container_keeps_fields (o : CellOutput) :
  _json (snd (container o)) = _json o /\
  cell (snd (container o)) = cell o /\
  _selected_mime (snd (container o)) = _selected_mime o.
Proof.
  unfold container.
  destruct (selected_mime o); [|easy].
  destruct (_containers o !! a); [easy|].
  destruct (find_renderer a MIME_RENDERERS); [|easy].
  destruct (getitem (CellOutput_data o) a); easy.
Qed.

(** No method selects a MIME type: [_selected_mime] stays [None]. *)
Lemma reachable_selected_mime (o : CellOutput) :
  reachable o -> _selected_mime o = None.
Proof.
  induction 1 as [json c|o json _ IH|o _ IH]; cbn; auto.
  now rewrite (proj2 (proj2 (container_keeps_fields o))).
Qed.

(** C9: assigning [json] to a [CellOutput] empties the renderer cache, no
    renderer made before is left in it, and the MIME type selected
    afterwards is the default one: the key of the new data mapping of least
    rank value, the first such key in the mapping's own order.  The mapping
    derived from the new JSON must have a key for a default to exist. *)
Theorem json_assignment_resets_output (self : CellOutput)
    (outputs_json : OutputJson) :
  reachable self ->
  data_items outputs_json <> [] ->
  let self' := CellOutput_set_json self outputs_json in
  CellOutput_json self' = outputs_json /\
  _containers self' = ∅ /\
  (forall mime, _containers self' !! mime = None) /\
  exists mime payload before after,
    selected_mime self' = Ok mime /\
    data_items outputs_json = before ++ (mime, payload) :: after /\
    Forall (fun kv => _calculate_mime_rank (mime, payload)
                      < _calculate_mime_rank kv) before /\
    Forall (fun kv => _calculate_mime_rank (mime, payload)
                      <= _calculate_mime_rank kv) after.
Proof.
  intros Hreach Hdata self'.
  split; [reflexivity|]. split; [reflexivity|].
  split; [intros mime; apply lookup_empty|].
  unfold selected_mime, CellOutput_data. subst self'. cbn.
  rewrite (reachable_selected_mime self Hreach).
  destruct (sorted _calculate_mime_rank (data_items outputs_json))
    as [|[mime payload] rest] eqn:E.
  - now apply sorted_nil_inv in E.
  - destruct (sorted_head _ _ _ _ E) as (before & after & Heq & Hb & Ha).
    exists mime, payload, before, after. auto.
Qed.

Lemma json_assignment_resets_output_witness :
  let old :=
    {| json_output_type := Some "stream";
       json_name := Some "stdout";
       json_text := Some "hi";
       json_traceback := None;
       json_data := None;
       json_metadata := None |} in
  let new :=
    {| json_output_type := Some "execute_result";
       json_name := None;
       json_text := None;
       json_traceback := None;
       json_data := Some [("text/plain", "1"); ("image/png", "iVBOR")];
       json_metadata := None |} in
  let self := snd (container (CellOutput_init old 0%nat)) in
  _containers self <> ∅ /\
  _containers (CellOutput_set_json self new) = ∅ /\
  selected_mime (CellOutput_set_json self new) = Ok "image/png".
Proof.
  intros old new self.
  destruct (json_assignment_resets_output self new)
    as (_ & Hc & _ & mime & payload & before & after & Hsel & _).
  - apply reach_container, reach_init.
  - discriminate.
  - split; [|split; [exact Hc|reflexivity]].
    intros H. apply (f_equal (fun m => m !! "stream/stdout")) in H.
    vm_compute in H. discriminate.
Defined.

End CellOutputFacts.

(** ** The output area *)

Section CellOutputAreaFacts.
Import Py CellOutputs.
Local Open Scope nat_scope.

Variable c : Cell.
Variable existing : list addr.

(** The outputs that the loop appends: the existing ones from position [i]
    on, as far as there are records, and then new addresses, from the end of
    the store on. *)
Lemma reconcile_outs (json : list OutputJson) :
  forall (i : nat) (h : store),
    fst (reconcile c existing i json h)
    = take (length json) (drop i existing)
      ++ seq (length h) (length json - (length existing - i)) /\
    length (snd (reconcile c existing i json h))
    = length h + (length json - (length existing - i)).
Proof.
  induction json as [|j json IH]; intros i h; cbn [reconcile].
  - cbn. split; [reflexivity|lia].
  - destruct (existing !! i) as [a|] eqn:E.
    + specialize (IH (S i) (alter (fun o => CellOutput_set_json o j) a h)).
      destruct (reconcile c existing (S i) json _) as [outs h2].
      cbn [fst snd] in *. destruct IH as [-> ->].
      rewrite length_alter. apply lookup_lt_Some in E as Hlt.
      rewrite (drop_S _ _ _ E). cbn [length take].
      replace (S (length json) - (length existing - i))
        with (length json - (length existing - S i)) by lia.
      split; reflexivity.
    + specialize (IH (S i) (h ++ [CellOutput_init j c])).
      destruct (reconcile c existing (S i) json _) as [outs h2].
      cbn [fst snd] in *. destruct IH as [-> ->].
      apply lookup_ge_None in E as Hge.
      rewrite !drop_ge by lia. rewrite !take_nil, length_app. cbn [length app].
      replace (length existing - i) with 0 by lia.
      replace (length existing - S i) with 0 by lia.
      rewrite !Nat.sub_0_r, Nat.add_1_r. cbn [seq]. split; [reflexivity|lia].
Qed.

(** The store that the loop leaves: an existing output met at position
    [i + k] has the record at position [k] assigned to its [json]; a record
    past the existing outputs has a new object, at the end of the store; and
    every other object is as it was. *)
Lemma reconcile_store (json : list OutputJson) :
  forall (i : nat) (h : store),
    NoDup existing ->
    Forall (fun a => a < length h) existing ->
    let h' := snd (reconcile c existing i json h) in
    (forall k a j,
        existing !! (i + k) = Some a -> json !! k = Some j ->
        exists o, h !! a = Some o /\ h' !! a = Some (CellOutput_set_json o j)) /\
    (forall k j,
        existing !! (i + k) = None -> json !! k = Some j ->
        h' !! (length h + (k - (length existing - i)))
        = Some (CellOutput_init j c)) /\
    (forall a,
        a < length h ->
        (forall k, k < length json -> existing !! (i + k) <> Some a) ->
        h' !! a = h !! a).
Proof.
  induction json as [|j0 json IH]; intros i h Hnd Hall; cbn [reconcile].
  - cbn. repeat split; intros; try discriminate; reflexivity.
  - destruct (existing !! i) as [a0|] eqn:E.
    + set (h1 := alter (fun o => CellOutput_set_json o j0) a0 h).
      assert (Hlen : length h1 = length h) by apply length_alter.
      assert (Hall1 : Forall (fun a => a < length h1) existing)
        by now rewrite Hlen.
      specialize (IH (S i) h1 Hnd Hall1).
      destruct (reconcile c existing (S i) json h1) as [outs h2].
      cbn [snd] in *. destruct IH as (IHa & IHb & IHc).
      apply lookup_lt_Some in E as Hi.
      assert (Ha0 : a0 < length h)
        by (eapply Forall_lookup_1 in Hall; [exact Hall|exact E]).
      repeat split.
      * intros [|k] a j Hk Hj.
        -- rewrite Nat.add_0_r, E in Hk. cbn in Hj.
           injection Hk as <-. injection Hj as <-.
           destruct (lookup_lt_is_Some_2 h a0 Ha0) as [o Ho].
           exists o. split; [exact Ho|].
           rewrite IHc.
           ++ unfold h1. now rewrite list_lookup_alter_eq, Ho.
           ++ lia.
           ++ intros k' _ Hk'.
              pose proof (NoDup_lookup _ _ _ _ Hnd E Hk'). lia.
        -- cbn in Hj. replace (i + S k) with (S i + k) in Hk by lia.
           destruct (IHa k a j Hk Hj) as (o & Ho & Ho').
           exists o. split; [|exact Ho'].
           rewrite <- Ho. unfold h1. symmetry. apply list_lookup_alter_ne.
           intros ->. pose proof (NoDup_lookup _ _ _ _ Hnd E Hk). lia.
      * intros [|k] j Hk Hj.
        -- rewrite Nat.add_0_r, E in Hk. discriminate.
        -- cbn in Hj. replace (i + S k) with (S i + k) in Hk by lia.
           specialize (IHb k j Hk Hj). apply lookup_ge_None in Hk.
           rewrite Hlen in IHb. rewrite <- IHb. f_equal. lia.
      * intros a Ha Hfree. rewrite IHc.
        -- unfold h1. apply list_lookup_alter_ne. intros ->.
           apply (Hfree 0); [cbn; lia|]. now rewrite Nat.add_0_r.
        -- lia.
        -- intros k Hk Hk'. apply (Hfree (S k)); [cbn; lia|].
           now replace (i + S k) with (S i + k) by lia.
    + set (h1 := h ++ [CellOutput_init j0 c]).
      assert (Hlen : length h1 = S (length h))
        by (unfold h1; rewrite length_app; cbn; lia).
      assert (Hall1 : Forall (fun a => a < length h1) existing).
      { eapply Forall_impl; [exact Hall|]. cbn. intros. lia. }
      specialize (IH (S i) h1 Hnd Hall1).
      destruct (reconcile c existing (S i) json h1) as [outs h2].
      cbn [snd] in *. destruct IH as (IHa & IHb & IHc).
      apply lookup_ge_None in E as Hi.
      repeat split.
      * intros k a j Hk _. apply lookup_lt_Some in Hk. lia.
      * intros [|k] j Hk Hj.
        -- cbn in Hj. injection Hj as <-.
           replace (length h + (0 - (length existing - i))) with (length h)
             by lia.
           rewrite IHc.
           ++ unfold h1. now rewrite list_lookup_middle.
           ++ lia.
           ++ intros k' _ Hk'. apply lookup_lt_Some in Hk'. lia.
        -- cbn in Hj. replace (i + S k) with (S i + k) in Hk by lia.
           specialize (IHb k j Hk Hj). rewrite Hlen in IHb.
           rewrite <- IHb. f_equal. lia.
      * intros a Ha Hfree. rewrite IHc.
        -- unfold h1. now apply lookup_app_l.
        -- lia.
        -- intros k _ Hk'. apply lookup_lt_Some in Hk'. lia.
Qed.

End CellOutputAreaFacts.

Section CellOutputAreaJson.
Import Py CellOutputs.
Local Open Scope nat_scope.

(** Reading the containers of the outputs leaves every object of the store
    in place, with the JSON, the cell and the selection it had. *)
Lemma to_containers_keeps (outs : list addr) :
  forall h : store,
    let h' := snd (to_containers outs h) in
    length h' = length h /\
    (forall a o,
        h !! a = Some o ->
        exists o', h' !! a = Some o' /\ _json o' = _json o /\
                   cell o' = cell o /\ _selected_mime o' = _selected_mime o).
Proof.
  induction outs as [|a0 outs IH]; intros h; cbn [to_containers].
  - cbn. split; [reflexivity|]. intros a o Ho. exists o. auto.
  - destruct (h !! a0) as [o0|] eqn:E.
    2:{ cbn. split; [reflexivity|]. intros a o Ho. exists o. auto. }
    pose proof (container_keeps_fields o0) as (K1 & K2 & K3).
    destruct (container o0) as [r o0']. cbn [snd] in K1, K2, K3.
    set (h1 := <[a0 := o0']> h).
    assert (Hlen : length h1 = length h) by apply length_insert.
    assert (Hstep : forall a o, h !! a = Some o ->
              exists o', h1 !! a = Some o' /\ _json o' = _json o /\
                         cell o' = cell o /\
                         _selected_mime o' = _selected_mime o).
    { intros a o Ho. destruct (decide (a = a0)) as [->|Hne].
      - exists o0'. rewrite E in Ho. injection Ho as <-.
        apply lookup_lt_Some in E. unfold h1.
        rewrite list_lookup_insert_eq by exact E. auto.
      - exists o. unfold h1. rewrite list_lookup_insert_ne by congruence.
        auto. }
    destruct r as [element|e]; [|cbn; auto].
    specialize (IH h1). destruct (to_containers outs h1) as [rs h2].
    cbn [snd] in *. destruct IH as [IHlen IHkeep].
    split; [congruence|].
    intros a o Ho. destruct (Hstep a o Ho) as (o1 & Ho1 & J1 & C1 & S1).
    destruct (IHkeep a o1 Ho1) as (o2 & Ho2 & J2 & C2 & S2).
    exists o2. repeat split; congruence.
Qed.

(** What the setter leaves of the area, in terms of the two loops. *)
Lemma set_json_unfold (self : CellOutputArea)
    (outputs_json : list OutputJson) (h : store) :
  let out := CellOutputArea_set_json self outputs_json h in
  let rec :=
    reconcile (area_cell self) (area_rendered_outputs self) 0
      outputs_json h in
  area_rendered_outputs (area_after out) = fst rec /\
  area_json (area_after out) = outputs_json /\
  area_cell (area_after out) = area_cell self /\
  store_after out = snd (to_containers (fst rec) (snd rec)).
Proof.
  unfold CellOutputArea_set_json, rendered_outputs. cbn.
  destruct (reconcile _ _ 0 outputs_json h) as [outs h1]. cbn [fst snd].
  destruct (to_containers outs h1) as [[children|e] h2]; cbn; auto.
Qed.

(** C6: assigning a JSON list of length [n] to an area that holds [m]
    outputs reconciles by position.  At every position below both [m] and
    [n] the output is the object that was there, with the new record as its
    JSON; at every position from [m] up to [n] there is an object that the
    store did not hold before, made for the new record; there is no position
    from [n] on.  The area stays well formed. *)
Theorem area_json_reconciles_by_position (self : CellOutputArea)
    (h : store) (outputs_json : list OutputJson) :
  area_wf self h ->
  let out := CellOutputArea_set_json self outputs_json h in
  let old := area_rendered_outputs self in
  let new := area_rendered_outputs (area_after out) in
  let m := length (area_json self) in
  let n := length outputs_json in
  area_wf (area_after out) (store_after out) /\
  area_json (area_after out) = outputs_json /\
  length new = n /\
  (forall i, i < m -> i < n ->
     exists a before after j,
       old !! i = Some a /\ new !! i = Some a /\
       h !! a = Some before /\ store_after out !! a = Some after /\
       outputs_json !! i = Some j /\ _json after = j /\
       cell after = cell before) /\
  (forall i, m <= i -> i < n ->
     exists a after j,
       new !! i = Some a /\ h !! a = None /\ (a ∉ old) /\
       store_after out !! a = Some after /\
       outputs_json !! i = Some j /\ _json after = j /\
       cell after = area_cell self) /\
  (forall i, n <= i -> new !! i = None).
Proof.
  intros (Hnd & Hall & Hlen) out old new m n. subst old.
  destruct (set_json_unfold self outputs_json h) as (Hnew & Hjson & _ & Hst).
  fold out in Hnew, Hjson, Hst. fold new in Hnew.
  destruct (reconcile_outs (area_cell self) (area_rendered_outputs self)
              outputs_json 0 h) as [Houts Hlen1].
  destruct (reconcile_store (area_cell self) (area_rendered_outputs self)
              outputs_json 0 h Hnd Hall) as (Sa & Sb & _).
  set (old := area_rendered_outputs self) in *.
  set (rec := reconcile (area_cell self) old 0 outputs_json h) in *.
  destruct (to_containers_keeps (fst rec) (snd rec)) as [Klen Kkeep].
  rewrite <- Hst in Klen, Kkeep. cbn zeta in Sa, Sb.
  rewrite Nat.sub_0_r, drop_0 in Houts. rewrite Nat.sub_0_r in Hlen1.
  fold n in Houts, Hlen1. fold old in Hlen.
  assert (Hm : length old = m) by exact Hlen.
  rewrite Hm in Houts, Hlen1.
  assert (Hnewlen : length new = n).
  { rewrite Hnew, Houts, length_app, length_take, length_seq. lia. }
  assert (Hreused : forall i, i < m -> i < n -> new !! i = old !! i).
  { intros i Hi Hi'. rewrite Hnew, Houts.
    rewrite lookup_app_l by (rewrite length_take; lia).
    now apply lookup_take_lt. }
  assert (Hfresh : forall i, m <= i -> i < n ->
            new !! i = Some (length h + (i - m))).
  { intros i Hi Hi'. rewrite Hnew, Houts.
    rewrite lookup_app_r by (rewrite length_take; lia).
    rewrite length_take, lookup_seq_lt by lia. f_equal. lia. }
  split; [|split; [exact Hjson|split; [exact Hnewlen|split; [|split]]]].
  - (* well formed *)
    unfold area_wf. fold new. split; [|split].
    + rewrite Hnew, Houts. apply NoDup_app. split; [|split].
      * eapply sublist_NoDup; [exact Hnd|apply sublist_take].
      * intros x Hx Hx'. apply elem_of_take in Hx as (i & Hi & _).
        apply (Forall_lookup_1 _ _ _ _ Hall) in Hi.
        apply elem_of_seq in Hx'. lia.
      * apply NoDup_seq.
    + rewrite Hnew, Houts, Klen, Hlen1. apply Forall_app. split.
      * apply Forall_take. eapply Forall_impl; [exact Hall|].
        cbn. intros. lia.
      * apply Forall_seq. intros. lia.
    + rewrite Hjson. exact Hnewlen.
  - (* reused *)
    intros i Hi Hi'.
    destruct (lookup_lt_is_Some_2 old i) as [a Ha]; [lia|].
    destruct (lookup_lt_is_Some_2 outputs_json i) as [j Hj]; [exact Hi'|].
    destruct (Sa i a j Ha Hj) as (before & Hb & Hb').
    destruct (Kkeep a _ Hb') as (after & Hafter & J & C & _).
    exists a, before, after, j. rewrite Hreused by assumption.
    repeat split; auto.
  - (* new *)
    intros i Hi Hi'.
    destruct (lookup_lt_is_Some_2 outputs_json i) as [j Hj]; [exact Hi'|].
    assert (Hnone : old !! (0 + i) = None)
      by (apply lookup_ge_None_2; cbn; lia).
    specialize (Sb i j Hnone Hj). rewrite Nat.sub_0_r, Hm in Sb.
    destruct (Kkeep _ _ Sb) as (after & Hafter & J & C & _).
    exists (length h + (i - m)), after, j. rewrite Hfresh by assumption.
    repeat split; auto.
    + apply lookup_ge_None_2. lia.
    + intros Hin. apply list_elem_of_lookup in Hin as [k Hk].
      apply (Forall_lookup_1 _ _ _ _ Hall) in Hk. lia.
  - (* dropped *)
    intros i Hi. apply lookup_ge_None_2. lia.
Qed.

(** From [[A, B]] to [[A', B, C]]: the objects at positions 0 and 1 stay,
    the one at position 2 is new. *)
Lemma area_json_reconciles_witness :
  let stream text :=
    {| json_output_type := Some "stream"; json_name := Some "stdout";
       json_text := Some text; json_traceback := None;
       json_data := None; json_metadata := None |} in
  let A := stream "a" in
  let A' := stream "ab" in
  let B :=
    {| json_output_type := Some "execute_result"; json_name := None;
       json_text := None; json_traceback := None;
       json_data := Some [("text/plain", "1")]; json_metadata := None |} in
  let C :=
    {| json_output_type := Some "error"; json_name := None;
       json_text := None; json_traceback := Some ["Traceback"; "Error"];
       json_data := None; json_metadata := None |} in
  let out0 := CellOutputArea_init [A; B] 0 [] in
  let out1 :=
    CellOutputArea_set_json (area_after out0) [A'; B; C] (store_after out0) in
  area_rendered_outputs (area_after out0) = [0; 1] /\
  area_rendered_outputs (area_after out1) = [0; 1; 2] /\
  _json <$> store_after out1 = [A'; B; C] /\
  area_wf (area_after out1) (store_after out1).
Proof.
  intros stream A A' B C out0 out1.
  assert (W0 : area_wf (mkCellOutputArea 0 [] [] []) []).
  { repeat split; constructor. }
  pose proof (area_json_reconciles_by_position _ _ [A; B] W0) as (W1 & _).
  pose proof (area_json_reconciles_by_position
                (area_after out0) (store_after out0) [A'; B; C] W1)
    as (W2 & _).
  split; [reflexivity|]. split; [reflexivity|].
  split; [vm_compute; reflexivity|exact W2].
Defined.

End CellOutputAreaJson.

(** ** The tab bar *)

Section TabControlFacts.
Import Py Layout.

Lemma index_in_range {A : Type} (l : list A) (i : Z) :
  0 <= i < Z.of_nat (length l) -> exists a, index l i = Ok a.
Proof.
  intros Hi. unfold index.
  destruct (Z.ltb_spec i 0); [lia|].
  destruct (Z.leb_spec 0 i); [|lia].
  destruct (Z.ltb_spec i (Z.of_nat (length l))); [|lia]. cbn.
  destruct (nth_error l (Z.to_nat i)) eqn:E; [eauto|].
  apply nth_error_None in E. lia.
Qed.

Lemma index_at_length {A : Type} (l : list A) :
  index l (Z.of_nat (length l)) = Raise IndexError.
Proof.
  unfold index. destruct (Z.ltb_spec (Z.of_nat (length l)) 0); [lia|].
  rewrite Z.ltb_irrefl, andb_false_r. reflexivity.
Qed.

(** X1: scrolling down on a control whose active index is valid never reaches
    an activate callback: the index computed is the number of tabs, the
    deactivate callback of the active tab is called if it is set, and the
    lookup of the tab to activate raises. *)
Lemma scroll_down_raises (self : TabControl) (x y : Z) :
  0 <= active self < Z.of_nat (length (tabs self)) ->
  exists old,
    index (tabs self) (active self) = Ok old /\
    mouse_handler self (mkMouseEvent x y SCROLL_DOWN)
    = (match on_deactivate old with
       | Some deactivate => [deactivate]
       | None => []
       end, Raise IndexError).
Proof.
  intros Ha. destruct (index_in_range _ _ Ha) as [old Hold].
  exists old. split; [exact Hold|].
  unfold mouse_handler. cbn [event_type is_mouse_up].
  rewrite andb_false_r. unfold switch_tab.
  rewrite Z.max_r by lia.
  destruct (Z.eqb_spec (Z.of_nat (length (tabs self))) (active self)); [lia|].
  cbn [negb]. rewrite Hold, index_at_length. reflexivity.
Qed.

(** X2: scrolling up on a control whose active index is valid moves one step
    toward 0 and stops there: above 0 it calls the deactivate callback of
    the active tab, if it is set, and then the activate callback of the tab
    before it; at 0 it calls nothing and leaves the event unhandled. *)
Lemma scroll_up_moves (self : TabControl) (x y : Z) :
  0 <= active self < Z.of_nat (length (tabs self)) ->
  exists old new,
    index (tabs self) (active self) = Ok old /\
    index (tabs self) (Z.max (active self - 1) 0) = Ok new /\
    mouse_handler self (mkMouseEvent x y SCROLL_UP)
    = if active self =? 0 then ([], Ok NotImplemented)
      else (match on_deactivate old with
            | Some deactivate => [deactivate]
            | None => []
            end ++ [on_activate new], Ok ReturnNone).
Proof.
  intros Ha. destruct (index_in_range _ _ Ha) as [old Hold].
  destruct (index_in_range (tabs self) (Z.max (active self - 1) 0))
    as [new Hnew]; [lia|].
  exists old, new. split; [exact Hold|]. split; [exact Hnew|].
  unfold mouse_handler. cbn [event_type is_mouse_up].
  rewrite andb_false_r. unfold switch_tab. rewrite Hold, Hnew.
  destruct (Z.eqb_spec (active self) 0) as [E|E].
  - rewrite E. reflexivity.
  - destruct (Z.eqb_spec (Z.max (active self - 1) 0) (active self)); [lia|].
    reflexivity.
Qed.

(** C1 at a failing input: two tabs, the first active, one scroll down.  The
    index computed is 2, the number of tabs, where the claim has 1; the
    deactivate callback of the first tab is called, then looking up the tab
    to activate raises [IndexError], and no activate callback is called.
    With [min] and the last index the same statements would call the
    deactivate callback of the first tab and the activate callback of the
    second. *)
Theorem scroll_down_on_first_of_two_tabs :
  let t0 := mkTab [("", [97%N])] 10%nat (Some 11%nat) None in
  let t1 := mkTab [("", [98%N])] 20%nat (Some 21%nat) None in
  let self := TabControl_init [t0; t1] 0 1 false in
  let n := Z.of_nat (length (tabs self)) in
  Z.max (active self + 1) n = 2 /\
  Z.min (active self + 1) (n - 1) = 1 /\
  mouse_handler self (mkMouseEvent 0 0 SCROLL_DOWN)
  = ([11%nat], Raise IndexError) /\
  switch_tab self (Z.min (active self + 1) (n - 1))
  = ([11%nat; 20%nat], Ok ReturnNone).
Proof. cbv zeta. repeat split. Qed.

End TabControlFacts.

(** ** Stacked splits *)

Section StackedSplitFacts.
Import Py Layout.

Lemma option_Z_eqb_eq (a b : option Z) : option_Z_eqb a b = true <-> a = b.
Proof.
  destruct a as [x|], b as [y|]; cbn; try easy.
  rewrite Z.eqb_eq. split; congruence.
Qed.

(** The index the setter stores, whether it differs from the old one or
    not. *)
Lemma set_active_stores (self : StackedSplit) (v : Z) :
  StackedSplit_active (set_active self (Some v)).1.1
  = Some (Z.max 0 (Z.min v (Z.of_nat (length (children self))))) /\
  children (set_active self (Some v)).1.1 = children self.
Proof.
  unfold set_active.
  set (value := Some (Z.max 0 (Z.min v (Z.of_nat (length (children self)))))).
  destruct (option_Z_eqb value (_active self)) eqn:E; cbn [negb].
  - apply option_Z_eqb_eq in E. cbn. auto.
  - subst value. cbv beta iota.
    destruct (index _ _); cbn; auto.
Qed.

(** C3, as the code has it: the constructor stores the requested initial
    index as it is given, without clamping it; and assigning an integer [v]
    below the number of children of a split that has a child stores
    [max(0, v)], which is a valid position, and ends without an error. *)
Theorem stacked_split_active_index (children0 : list Container)
    (titles : list StyleAndTextTuples) (i : Z) :
  length children0 = length titles ->
  StackedSplit_active (StackedSplit_init children0 titles i) = Some i /\
  forall (self : StackedSplit) (v : Z),
    v < Z.of_nat (length (children self)) ->
    (0 < length (children self))%nat ->
    let done := set_active self (Some v) in
    StackedSplit_active done.1.1 = Some (Z.max 0 v) /\
    0 <= Z.max 0 v < Z.of_nat (length (children done.1.1)) /\
    done.2 = Ok tt.
Proof.
  intros _. split; [reflexivity|].
  intros self v Hv Hlen done.
  destruct (set_active_stores self v) as [Hact Hch]. fold done in Hact, Hch.
  rewrite Z.min_l in Hact by lia.
  split; [exact Hact|]. split; [rewrite Hch; lia|].
  subst done. unfold set_active.
  rewrite Z.min_l by lia.
  destruct (option_Z_eqb _ _); cbn [negb]; [reflexivity|].
  cbv beta iota zeta.
  destruct (index_in_range (_children self) (Z.max 0 v)) as [child Hc].
  { unfold children in *. lia. }
  unfold children. cbn [_children]. rewrite Hc. reflexivity.
Qed.

Lemma stacked_split_active_index_witness :
  let self := StackedSplit_init [0; 1]%nat [[]; []] 5 in
  StackedSplit_active self = Some 5 /\
  StackedSplit_active (set_active self (Some (-3))).1.1 = Some 0 /\
  StackedSplit_active (set_active self (Some 1)).1.1 = Some 1.
Proof.
  intros self.
  destruct (stacked_split_active_index [0; 1]%nat [[]; []] 5 eq_refl)
    as [Hinit Hset].
  split; [exact Hinit|]. split.
  - apply (Hset self (-3)); cbn; lia.
  - apply (Hset self 1); cbn; lia.
Defined.

(** C3 as stated fails: constructed with two children and the initial
    index 5, the split has the active index 5, not 1; and assigning 7 to it
    afterwards stores 2, the number of children, and raises. *)
Lemma stacked_split_active_out_of_range :
  let self := StackedSplit_init [0; 1]%nat [[]; []] 5 in
  StackedSplit_active self = Some 5 /\
  Some 5 <> Some (Z.max 0 (Z.min 5 (2 - 1))) /\
  StackedSplit_active (set_active self (Some 7)).1.1 = Some 2 /\
  (set_active self (Some 7)).2 = Raise IndexError /\
  ~ (0 <= 2 < Z.of_nat (length (children self))).
Proof.
  cbv zeta. repeat split; try discriminate. cbn. lia.
Qed.

End StackedSplitFacts.

Section RenderFacts.
Import Py Layout.

Variable get_cwidth : N -> Z.

Abbreviation flw := (fragment_list_width get_cwidth).

(** Decide the marker test on the styles that are constants. *)
Ltac eval_markers :=
  repeat match goal with
         | |- context [str_in ?a ?b] =>
             let v := eval vm_compute in (str_in a b) in
             change (str_in a b) with v
         end;
  cbn match.

Lemma fragment_list_width_app (l1 l2 : StyleAndTextTuples) :
  flw (l1 ++ l2) = flw l1 + flw l2.
Proof.
  induction l1 as [|[style t] l1 IH]; cbn [app fragment_list_width]; lia.
Qed.

(** The styles that [render] puts before the style of a title fragment do
    not hold the zero-width-escape marker, so a title fragment counts in the
    row exactly when it counts in the title. *)
Lemma title_style_marker (is_active : bool) (frag_style : string) :
  str_in "[ZeroWidthEscape]"
    ((if is_active then "class:active" else "class:inactive")
     ++ " class:tab,title " ++ frag_style)%string
  = str_in "[ZeroWidthEscape]" frag_style.
Proof. destruct is_active; reflexivity. Qed.

Lemma title_width_restyled (is_active : bool) (title_ft : StyleAndTextTuples) :
  flw (map (fun f : fragment =>
              (((if is_active then "class:active" else "class:inactive")
                ++ " class:tab,title " ++ fst f)%string, snd f)) title_ft)
  = flw title_ft.
Proof.
  induction title_ft as [|[style t] title_ft IH]; [reflexivity|].
  cbn [map fragment_list_width fst snd].
  rewrite title_style_marker, IH. reflexivity.
Qed.

Lemma add_spacing_width (n : nat) (step : Z) (st : RenderState) :
  flw (tab_line (add_spacing n step st))
  = flw (tab_line st) + Z.of_nat n * get_cwidth char_bottom.
Proof.
  revert st. induction n as [|n IH]; intros st; cbn [add_spacing].
  - lia.
  - rewrite IH. cbn [tab_line]. rewrite fragment_list_width_app.
    cbn. lia.
Qed.

Lemma render_tab_width (self : TabControl) (j : Z) (tab : Tab)
    (st : RenderState) :
  flw (tab_line (render_tab get_cwidth self j tab st))
  = flw (tab_line st) + tab_width get_cwidth self tab.
Proof.
  unfold render_tab, tab_width, spacing_width.
  destruct (mark _ _ _ _) as [i2 mh2].
  destruct (closeable self);
    rewrite add_spacing_width; cbn [tab_line];
    rewrite !fragment_list_width_app, title_width_restyled;
    destruct (active self =? j); cbn; eval_markers; lia.
Qed.

Lemma render_tabs_width (self : TabControl) (ts : list Tab) :
  forall (j : Z) (st : RenderState),
    flw (tab_line (render_tabs get_cwidth self j ts st))
    = flw (tab_line st)
      + fold_right (fun tab acc => tab_width get_cwidth self tab + acc) 0 ts.
Proof.
  induction ts as [|tab ts IH]; intros j st; cbn [render_tabs fold_right].
  - lia.
  - rewrite IH, render_tab_width. lia.
Qed.

(** The row before the filling border is as wide as the tabs need. *)
Lemma render_content_width (self : TabControl) :
  flw (tab_line (render_content get_cwidth self))
  = content_width get_cwidth self.
Proof.
  unfold render_content, content_width, spacing_width.
  rewrite render_tabs_width. cbn [tab_line].
  rewrite add_spacing_width. cbn. lia.
Qed.

Lemma times_width (ch : N) (n : Z) :
  text_width get_cwidth (times ch n) = Z.of_nat (Z.to_nat n) * get_cwidth ch.
Proof.
  unfold times. induction (Z.to_nat n) as [|k IH]; cbn [repeat text_width fold_right].
  - lia.
  - unfold text_width in IH. rewrite IH. lia.
Qed.

(** C4, as the code has it: the tab row that [render] returns is the row of
    the tabs, unchanged, followed by one run of bottom-border glyphs; with a
    bottom-border glyph one column wide, the row is as wide as the larger of
    [width] and the columns the tabs need.  So the row is exactly [width]
    wide when the tabs fit, and wider than [width], by the whole overflow,
    when they do not: the filling run is then empty and nothing is cut. *)
Theorem tab_row_width (self : TabControl) (width : Z) :
  get_cwidth char_bottom = 1 ->
  let content := tab_line (render_content get_cwidth self) in
  let need := content_width get_cwidth self in
  exists top_row tab_row,
    fst (render get_cwidth self width) = [top_row; tab_row] /\
    tab_row
    = content ++ [("class:border,bottom", times char_bottom (width - need))] /\
    flw content = need /\
    flw tab_row = Z.max width need /\
    (need <= width -> flw tab_row = width) /\
    (width < need -> flw tab_row = need).
Proof.
  intros Hbottom content need.
  assert (Hneed : flw content = need) by apply render_content_width.
  assert (Hrow :
    flw (content
         ++ [("class:border,bottom", times char_bottom (width - need))])
    = Z.max width need).
  { rewrite fragment_list_width_app, Hneed.
    cbn [fragment_list_width]. change (str_in _ _) with false. cbn match.
    rewrite times_width, Hbottom. lia. }
  eexists _, _. split; [reflexivity|].
  unfold content in *. rewrite Hneed.
  split; [reflexivity|]. split; [reflexivity|]. split; [exact Hrow|].
  rewrite Hrow. split; lia.
Qed.

End RenderFacts.

Section RenderExamples.
Import Py Layout.

(** One tab titled [ab], spacing 1, no close button, every character one
    column wide: the row needs 6 columns, and rendered at width 10 it is 10
    columns wide. *)
Lemma tab_row_width_witness :
  let self :=
    TabControl_init [mkTab [("", [97%N; 98%N])] 10%nat None None] 0 1 false in
  content_width (fun _ => 1) self = 6 /\
  fragment_list_width (fun _ => 1)
    (nth 1 (fst (render (fun _ => 1) self 10)) []) = 10.
Proof.
  intros self. split; [reflexivity|].
  destruct (tab_row_width (fun _ => 1) self 10 eq_refl)
    as (top_row & tab_row & Hr & _ & _ & _ & Hfit & _).
  rewrite Hr. cbn [nth]. apply Hfit. vm_compute. discriminate.
Defined.

(** C4 as stated fails: rendered at width 3, the row of the same control is
    6 columns wide. *)
Lemma tab_row_wider_than_width :
  let self :=
    TabControl_init [mkTab [("", [97%N; 98%N])] 10%nat None None] 0 1 false in
  fragment_list_width (fun _ => 1)
    (nth 1 (fst (render (fun _ => 1) self 3)) []) = 6 /\
  fragment_list_width (fun _ => 1)
    (nth 1 (fst (render (fun _ => 1) self 3)) []) <> 3.
Proof. cbv zeta. split; [reflexivity|vm_compute; discriminate]. Qed.

End RenderExamples.

(** ** The application shell *)

(** *** Dispatch of named operations *)

Section TabOpFacts.
Import Py Tui.

Variable none_attr : string -> option attr.

(** C10: when [tab_op] is given a tab [t] that has the named operation, what
    runs is decided by the current tab alone, [t] only passes the guard.
    If the current tab has the operation as a method, that method is called,
    also when the current tab is another tab than [t]; if there is no
    current tab and the name is no attribute of [None], the lookup raises
    [AttributeError]. *)
Theorem tab_op_runs_on_current_tab (self : TuiApp) (operation : string)
    (t : Tab) :
  hasattr t operation = true ->
  tab_op none_attr self operation (Some t)
  = match getattr none_attr (tab self) operation with
    | Raise e => ([], Raise e)
    | Ok (r, func) =>
        if callable func then ([(r, operation)], Ok tt) else ([], Ok tt)
    end /\
  (forall cur,
      tab self = Some cur ->
      tab_attrs cur !! operation = Some Method ->
      tab_op none_attr self operation (Some t)
      = ([(OnTab (tab_id cur), operation)], Ok tt)) /\
  (forall cur,
      tab self = Some cur ->
      tab_attrs cur !! operation = None ->
      tab_op none_attr self operation (Some t) = ([], Raise AttributeError)) /\
  (tab self = None ->
   none_attr operation = None ->
   tab_op none_attr self operation (Some t) = ([], Raise AttributeError)).
Proof.
  intros Hguard.
  assert (Heq : tab_op none_attr self operation (Some t)
                = match getattr none_attr (tab self) operation with
                  | Raise e => ([], Raise e)
                  | Ok (r, func) =>
                      if callable func then ([(r, operation)], Ok tt)
                      else ([], Ok tt)
                  end).
  { unfold tab_op. rewrite Hguard. reflexivity. }
  split; [exact Heq|]. rewrite Heq. unfold getattr. repeat split.
  - intros cur -> ->. reflexivity.
  - intros cur -> ->. reflexivity.
  - intros -> ->. reflexivity.
Qed.

End TabOpFacts.

Section TabOpExamples.
Import Py Tui.

(** Two notebooks that both have [save]; the second is current, the first is
    passed: [save] runs on the second.  With no current tab the call
    raises. *)
Lemma tab_op_runs_on_current_tab_witness :
  let none_attr name :=
    if String.prefix "__" name then Some Method else None in
  let t := mkTab 1 {[ "save" := Method ]} in
  let cur := mkTab 2 {[ "save" := Method ]} in
  let app current := mkTuiApp [t; cur] current [] [] 0%nat 0%nat in
  tab_op none_attr (app (Some cur)) "save" (Some t)
  = ([(OnTab 2, "save")], Ok tt) /\
  tab_op none_attr (app None) "save" (Some t) = ([], Raise AttributeError).
Proof.
  intros none_attr t cur app.
  destruct (tab_op_runs_on_current_tab none_attr (app (Some cur)) "save" t
              eq_refl) as (_ & Hcur & _).
  destruct (tab_op_runs_on_current_tab none_attr (app None) "save" t
              eq_refl) as (_ & _ & _ & Hnone).
  split.
  - apply (Hcur cur); reflexivity.
  - apply Hnone; reflexivity.
Defined.

End TabOpExamples.

(** *** Dialogs *)

Section DialogFacts.
Import Py Tui.

Variable is_focusable : Control -> bool.

(** Every handler that [dialog] makes holds the control that was current
    when [dialog] was called, and the float that [dialog] inserted. *)
Lemma dialog_captures (self : TuiApp) (body : list Control)
    (buttons : list button) (to_focus : option Control) (h : handler) :
  In h (dialog is_focusable self body buttons to_focus).1.2 ->
  handler_focused h = current_control self /\
  handler_dialog h = next_float self.
Proof.
  assert (Hhs : (dialog is_focusable self body buttons to_focus).1.2
                = map (fun b => mkHandler (next_float self)
                                  (current_control self) (button_cb b))
                    buttons).
  { unfold dialog.
    destruct to_focus as [c|]; [|destruct buttons as [|b bs]];
      cbn -[layout_focus]; try reflexivity;
      destruct (layout_focus _ _ _); reflexivity. }
  rewrite Hhs. intros Hin. apply in_map_iff in Hin as (b & <- & _).
  split; reflexivity.
Qed.

(** The float that [dialog] inserted is the first of the floats, whether or
    not focusing the dialog worked. *)
Lemma dialog_floats (self : TuiApp) (body : list Control)
    (buttons : list button) (to_focus : option Control) :
  floats (dialog is_focusable self body buttons to_focus).1.1
  = {| float_id := next_float self;
       float_controls := body ++ map button_control buttons |}
    :: floats self /\
  layout_controls (dialog is_focusable self body buttons to_focus).1.1
  = layout_controls self.
Proof.
  unfold dialog.
  destruct to_focus as [c|]; [|destruct buttons as [|b bs]];
    cbn -[layout_focus map]; try (split; reflexivity);
    unfold layout_focus; destruct (_ && _); split; reflexivity.
Qed.

(** Calling a handler whose dialog is among the floats removes the dialog,
    ends without an error, and leaves as current the captured control if it
    is focusable and still in the layout, the control that was current
    otherwise. *)
Lemma run_handler_restores (h : handler) (self : TuiApp) (fs : list Float) :
  remove_float (handler_dialog h) (floats self) = Ok fs ->
  (run_handler is_focusable h self).2 = Ok tt /\
  floats (run_handler is_focusable h self).1.1 = fs /\
  layout_controls (run_handler is_focusable h self).1.1
  = layout_controls self /\
  current_control (run_handler is_focusable h self).1.1
  = if control_in (handler_focused h)
         (layout_controls self ++ flat_map float_controls fs)
       && is_focusable (handler_focused h)
    then handler_focused h
    else current_control self.
Proof.
  intros Hrm. unfold run_handler. rewrite Hrm.
  unfold layout_focus, find_all_controls. cbn [set_floats floats layout_controls].
  destruct (control_in _ _); cbn [andb];
    [destruct (is_focusable _)|];
    destruct (handler_cb h); cbn; auto.
Qed.


(** C7: a handler holds the control that was current when its dialog was
    opened; called later, in whatever state the application is by then, as
    long as its dialog is among the floats, it removes the dialog and makes
    that control current again if it is focusable and still in the layout,
    and changes nothing of the focus otherwise.  So with a dialog [D1]
    opened, a dialog [D2] opened over it,
    [D2] closed and then [D1] closed, both dialogs are gone and the control
    that was current before [D1] was opened is current again, provided it is
    focusable and part of the layout. *)
Theorem dialogs_restore_focus (self0 : TuiApp)
    (body1 body2 : list Control) (buttons1 buttons2 : list button)
    (to_focus1 to_focus2 : option Control) (h1 h2 : handler) :
  let open1 := dialog is_focusable self0 body1 buttons1 to_focus1 in
  let open2 := dialog is_focusable open1.1.1 body2 buttons2 to_focus2 in
  let close2 := run_handler is_focusable h2 open2.1.1 in
  let close1 := run_handler is_focusable h1 close2.1.1 in
  In h1 open1.1.2 ->
  In h2 open2.1.2 ->
  control_in (current_control self0) (find_all_controls self0) = true ->
  is_focusable (current_control self0) = true ->
  handler_focused h1 = current_control self0 /\
  (forall (s : TuiApp) (fs : list Float),
      remove_float (handler_dialog h1) (floats s) = Ok fs ->
      (run_handler is_focusable h1 s).2 = Ok tt /\
      floats (run_handler is_focusable h1 s).1.1 = fs /\
      current_control (run_handler is_focusable h1 s).1.1
      = if control_in (current_control self0)
             (layout_controls s ++ flat_map float_controls fs)
           && is_focusable (current_control self0)
        then current_control self0
        else current_control s) /\
  handler_focused h2 = current_control open1.1.1 /\
  close2.2 = Ok tt /\
  current_control close2.1.1
  = (if control_in (handler_focused h2) (find_all_controls open1.1.1)
        && is_focusable (handler_focused h2)
     then handler_focused h2
     else current_control open2.1.1) /\
  close1.2 = Ok tt /\
  floats close1.1.1 = floats self0 /\
  current_control close1.1.1 = current_control self0.
Proof.
  intros open1 open2 close2 close1 Hh1 Hh2 Hin Hfoc.
  destruct (dialog_captures _ _ _ _ _ Hh1) as [Hf1 Hd1].
  destruct (dialog_captures _ _ _ _ _ Hh2) as [Hf2 Hd2].
  destruct (dialog_floats self0 body1 buttons1 to_focus1) as [Hfl1 Hlc1].
  destruct (dialog_floats open1.1.1 body2 buttons2 to_focus2)
    as [Hfl2 Hlc2].
  fold open1 in Hfl1, Hlc1, Hd2, Hf2, Hfl2, Hlc2. fold open2 in Hfl2, Hlc2.
  assert (Hrm2 : remove_float (handler_dialog h2) (floats open2.1.1)
                 = Ok (floats open1.1.1)).
  { rewrite Hfl2, Hd2. cbn. now rewrite Nat.eqb_refl. }
  destruct (run_handler_restores h2 open2.1.1 _ Hrm2)
    as (Hr2 & Hfs2 & Hl2 & Hc2).
  fold close2 in Hr2, Hfs2, Hl2, Hc2.
  assert (Hrm1 : remove_float (handler_dialog h1) (floats close2.1.1)
                 = Ok (floats self0)).
  { rewrite Hfs2, Hfl1, Hd1. cbn. now rewrite Nat.eqb_refl. }
  destruct (run_handler_restores h1 close2.1.1 _ Hrm1)
    as (Hr1 & Hfs1 & Hl1 & Hc1).
  fold close1 in Hr1, Hfs1, Hl1, Hc1.
  split; [exact Hf1|]. split.
  { intros s fs Hrm.
    destruct (run_handler_restores h1 s fs Hrm) as (Hr & Hfs & _ & Hc).
    rewrite Hc, Hf1. auto. }
  repeat split; try assumption.
  - rewrite Hc2, Hlc2. reflexivity.
  - rewrite Hc1, Hl2, Hlc2, Hlc1, Hf1.
    unfold find_all_controls in Hin. now rewrite Hin, Hfoc.
Qed.

End DialogFacts.

Section DialogExamples.
Import Py Tui.
Local Open Scope nat_scope.

(** The layout has the focusable controls 1 and 2, and 1 is current.  [D1]
    has the button control 10, [D2] the button control 20.  Closing [D2]
    makes 10 current, closing [D1] then makes 1 current. *)
Lemma dialogs_restore_focus_witness :
  let focusable (c : Control) := true in
  let self0 := mkTuiApp [] None [] [1; 2]%nat 1%nat 0%nat in
  let ok := mkButton "OK" None in
  let open1 := dialog focusable self0 [] [ok 10%nat] None in
  let open2 := dialog focusable open1.1.1 [] [ok 20%nat] None in
  let close2 := run_handler focusable (mkHandler 1 10 None) open2.1.1 in
  let close1 := run_handler focusable (mkHandler 0 1 None) close2.1.1 in
  current_control open1.1.1 = 10%nat /\
  current_control open2.1.1 = 20%nat /\
  current_control close2.1.1 = 10%nat /\
  current_control close1.1.1 = 1%nat /\
  floats close1.1.1 = [].
Proof.
  intros focusable self0 ok open1 open2 close2 close1.
  destruct (dialogs_restore_focus focusable self0 [] [] [ok 10%nat]
              [ok 20%nat] None None (mkHandler 0 1 None)
              (mkHandler 1 10 None))
    as (_ & _ & _ & _ & _ & _ & Hfl & Hcur);
    [left; reflexivity|left; reflexivity|reflexivity|reflexivity|].
  split; [reflexivity|]. split; [reflexivity|]. split; [reflexivity|].
  split; [exact Hcur|exact Hfl].
Defined.

End DialogExamples.

(** *** The exit chain *)

Section ExitFacts.
Import Py Tui.

Variable closes : Tab -> bool.
Variable cleanup_closed_tab : TuiApp -> Tab -> TuiApp.

Abbreviation run := (run_cb closes cleanup_closed_tab).
Abbreviation exit_ := (exit closes cleanup_closed_tab).

Lemma zip_next_snoc (ts : list Tab) (a b : Tab) :
  combine (ts ++ [a; b]) (tl (ts ++ [a; b]))
  = combine (ts ++ [a]) (tl (ts ++ [a])) ++ [(a, b)].
Proof.
  induction ts as [|x ts IH]; [reflexivity|].
  destruct ts as [|y ts]; [reflexivity|].
  cbn [app tl combine] in *. now rewrite IH.
Qed.

Lemma chain_of_rev (ts : list Tab) : chain ts = chain_rev (rev ts).
Proof.
  induction ts as [|b ts IH] using rev_ind; [reflexivity|].
  destruct ts as [|a ts _] using rev_ind; [reflexivity|].
  rewrite <- app_assoc. cbn [app]. unfold chain in *.
  rewrite zip_next_snoc, fold_left_app, IH.
  rewrite !rev_app_distr. cbn [rev app fold_left fst snd chain_rev].
  reflexivity.
Qed.

Lemma index_last (ts : list Tab) (t : Tab) : index (ts ++ [t]) (-1) = Ok t.
Proof.
  unfold index. cbn [Z.ltb Z.compare].
  rewrite length_app. cbn [length].
  destruct (Z.leb_spec 0 (Z.of_nat (length ts + 1) + -1)); [|lia].
  destruct (Z.ltb_spec (Z.of_nat (length ts + 1) + -1)
              (Z.of_nat (length ts + 1))); [|lia].
  cbn [andb].
  replace (Z.to_nat (Z.of_nat (length ts + 1) + -1)) with (length ts) by lia.
  rewrite nth_error_app2 by lia. now rewrite Nat.sub_diag.
Qed.

Lemma index_head (t : Tab) (ts : list Tab) : index (t :: ts) 0 = Ok t.
Proof.
  unfold index. cbn [Z.ltb Z.compare Z.leb andb].
  destruct (Z.ltb_spec 0 (Z.of_nat (length (t :: ts)))); [reflexivity|].
  cbn [length] in *. lia.
Qed.

Lemma exit_unfold (self : TuiApp) :
  tabs self <> [] ->
  exit_ self
  = match index (tabs self) (-1) with
    | Raise e => (self, [], Raise e)
    | Ok t =>
        if closes t then
          let '(self1, evs, r) := run (chain (tabs self)) self in
          (self1, CloseRequested t :: evs, r)
        else (self, [CloseRequested t], Ok tt)
    end.
Proof.
  unfold exit, Tab_close. destruct (tabs self); [easy|reflexivity].
Qed.

(** The chain from a tab [b] that has just closed, when the tabs [ra] closed
    after it complete and the tab [t] after them is cancelled. *)
Lemma run_chain_cancelled (t : Tab) (rb : list Tab) :
  closes t = false ->
  forall (ra : list Tab) (b : Tab) (s : TuiApp),
    forallb closes ra = true ->
    (run (chain_rev (b :: ra ++ t :: rb)) s).1.2
    = CleanedUp b :: flat_map closed ra ++ [CloseRequested t] /\
    (run (chain_rev (b :: ra ++ t :: rb)) s).2 = Ok tt.
Proof.
  intros Ht. induction ra as [|a ra IH]; intros b s Hra.
  - cbn. unfold Tab_close. rewrite Ht. cbn. auto.
  - cbn in Hra. apply andb_true_iff in Hra as [Ha Hra].
    change (chain_rev (b :: (a :: ra) ++ t :: rb))
      with (create_cb a b (chain_rev (a :: ra ++ t :: rb))).
    cbn [run_cb]. unfold Tab_close. rewrite Ha.
    specialize (IH a (cleanup_closed_tab s b) Hra).
    destruct (run (chain_rev (a :: ra ++ t :: rb)) _) as [[s2 evs] r].
    cbn [fst snd] in *. destruct IH as [-> ->]. auto.
Qed.

(** The chain from a tab [b] that has just closed, when all the tabs closed
    after it complete: the last callback runs, in the application as the
    cleanups have left it. *)
Lemma run_chain_completed (t : Tab) :
  closes t = true ->
  forall (mid : list Tab) (b : Tab) (s : TuiApp),
    forallb closes mid = true ->
    let s' := fold_left cleanup_closed_tab (b :: mid) s in
    run (chain_rev (b :: mid ++ [t])) s
    = ((run final_cb s').1.1,
       CleanedUp b :: flat_map closed mid
       ++ CloseRequested t :: (run final_cb s').1.2,
       (run final_cb s').2).
Proof.
  intros Ht. induction mid as [|a mid IH]; intros b s Hmid.
  - cbn [app chain_rev run_cb fold_left flat_map]. unfold Tab_close.
    rewrite Ht.
    destruct (index _ 0); reflexivity.
  - cbn in Hmid. apply andb_true_iff in Hmid as [Ha Hmid].
    change (chain_rev (b :: (a :: mid) ++ [t]))
      with (create_cb a b (chain_rev (a :: mid ++ [t]))).
    cbn [run_cb]. unfold Tab_close. rewrite Ha.
    rewrite (IH a (cleanup_closed_tab s b) Hmid). reflexivity.
Qed.

(** C2: with no tab open, [exit] terminates at once.  With tabs open, the
    tabs are asked to close from the last to the first, each after the one
    behind it has closed and has been cleaned up.  If a tab's close is
    cancelled while those behind it complete, the tabs behind it are closed
    and cleaned up, the tab itself is asked and nothing follows: no tab
    before it is asked to close, and the application does not terminate.  If
    every close completes, the last callback runs after the first tab has
    closed: it cleans up the tab then at the head of the tab list and
    terminates the application. *)
Theorem exit_chain (self : TuiApp) :
  (tabs self = [] -> exit_ self = (self, [ReallyClose], Ok tt)) /\
  (forall before t after,
      tabs self = before ++ t :: after ->
      closes t = false ->
      forallb closes after = true ->
      (exit_ self).1.2 = flat_map closed (rev after) ++ [CloseRequested t] /\
      (exit_ self).2 = Ok tt /\
      ~ In ReallyClose (exit_ self).1.2 /\
      (forall u, In (CloseRequested u) (exit_ self).1.2 -> In u (t :: after))) /\
  (forall t rest,
      tabs self = t :: rest ->
      forallb closes (t :: rest) = true ->
      let s' := fold_left cleanup_closed_tab (rev rest) self in
      (exit_ self).1.2
      = flat_map closed (rev rest)
        ++ CloseRequested t :: (run final_cb s').1.2 /\
      (forall t' ts',
          tabs s' = t' :: ts' ->
          exit_ self
          = (cleanup_closed_tab s' t',
             flat_map closed (rev rest)
             ++ [CloseRequested t; CleanedUp t'; ReallyClose],
             Ok tt))).
Proof.
  split; [|split].
  - intros H. unfold exit. now rewrite H.
  - intros before t after Htabs Ht Hafter.
    assert (Hev : (exit_ self).1.2
                  = flat_map closed (rev after) ++ [CloseRequested t] /\
                  (exit_ self).2 = Ok tt).
    { rewrite exit_unfold by (rewrite Htabs; now destruct before).
      rewrite chain_of_rev, Htabs.
      destruct after as [|b after _] using rev_ind.
      - rewrite index_last, Ht. auto.
      - rewrite app_comm_cons, app_assoc, index_last.
        rewrite forallb_app in Hafter. cbn in Hafter.
        apply andb_true_iff in Hafter as [Hafter Hb].
        rewrite andb_true_r in Hb. rewrite Hb.
        rewrite <- app_assoc, <- app_comm_cons.
        rewrite rev_app_distr. cbn [rev]. rewrite rev_app_distr.
        cbn [rev app]. rewrite <- !app_assoc. cbn [app].
        assert (Hrev : forallb closes (rev after) = true).
        { rewrite forallb_forall in *. intros x Hx. apply Hafter.
          now apply in_rev. }
        destruct (run_chain_cancelled t (rev before) Ht (rev after) b self
                    Hrev) as [Hevs Hres].
        destruct (run _ self) as [[s2 evs] r]. cbn [fst snd] in *.
        subst evs r. auto. }
    destruct Hev as [Hev Hres]. rewrite Hev.
    split; [reflexivity|]. split; [exact Hres|]. split.
    + intros Hin. apply in_app_iff in Hin as [Hin|[Hin|[]]]; [|discriminate].
      apply in_flat_map in Hin as (u & _ & [Hu|[Hu|[]]]); discriminate.
    + intros u Hin. apply in_app_iff in Hin as [Hin|[Hin|[]]].
      * apply in_flat_map in Hin as (v & Hv & [Hu|[Hu|[]]]);
          [|discriminate].
        injection Hu as ->. right. now apply in_rev.
      * injection Hin as ->. now left.
  - intros t rest Htabs Hall s'.
    cbn in Hall. apply andb_true_iff in Hall as [Ht Hrest].
    assert (Hrev : forall l, forallb closes l = true ->
                             forallb closes (rev l) = true).
    { intros l Hl. rewrite forallb_forall in *. intros x Hx. apply Hl.
      now apply in_rev. }
    assert (Hex : exit_ self
                  = ((run final_cb s').1.1,
                     flat_map closed (rev rest)
                     ++ CloseRequested t :: (run final_cb s').1.2,
                     (run final_cb s').2)).
    { rewrite exit_unfold by now rewrite Htabs.
      rewrite chain_of_rev, Htabs.
      destruct rest as [|b rest _] using rev_ind.
      - cbn [rev app flat_map chain_rev]. change (index [t] (-1)) with (Ok t).
        cbv beta iota. rewrite Ht. subst s'. cbn [rev fold_left].
        destruct (run final_cb self) as [[s2 evs] r]. reflexivity.
      - rewrite app_comm_cons, index_last.
        rewrite forallb_app in Hrest. cbn in Hrest.
        apply andb_true_iff in Hrest as [Hrest Hb].
        rewrite andb_true_r in Hb. rewrite Hb.
        rewrite <- app_comm_cons. cbn [rev]. rewrite !rev_app_distr.
        cbn [rev app].
        rewrite (run_chain_completed t Ht (rev rest) b self (Hrev _ Hrest)).
        subst s'. rewrite rev_app_distr. reflexivity. }
    split; [now rewrite Hex|].
    intros t' ts' Hs'. rewrite Hex. cbn [run_cb].
    rewrite Hs', index_head. reflexivity.
Qed.

End ExitFacts.

Section ExitExamples.
Import Py Tui.
Local Open Scope nat_scope.

(** Three tabs, the second of which cancels: the third is asked to close and
    is cleaned up, the second is asked, and that is all.  When none cancels
    and cleaning up removes the tab from the list, all three close, last to
    first, and the application terminates. *)
Lemma exit_chain_witness :
  let T1 := mkTab 1 ∅ in
  let T2 := mkTab 2 ∅ in
  let T3 := mkTab 3 ∅ in
  let self := mkTuiApp [T1; T2; T3] (Some T1) [] [] 0 0 in
  let cancel2 (t : Tab) := negb (Nat.eqb (tab_id t) 2) in
  let remove (s : TuiApp) (t : Tab) :=
    mkTuiApp
      (List.filter (fun u => negb (Nat.eqb (tab_id u) (tab_id t))) (tabs s))
      (tab s) (floats s) (layout_controls s) (current_control s)
      (next_float s) in
  (exit cancel2 remove self).1.2
  = [CloseRequested T3; CleanedUp T3; CloseRequested T2] /\
  ~ In ReallyClose (exit cancel2 remove self).1.2 /\
  (exit (fun _ => true) remove self).1.2
  = [CloseRequested T3; CleanedUp T3; CloseRequested T2; CleanedUp T2;
     CloseRequested T1; CleanedUp T1; ReallyClose].
Proof.
  intros T1 T2 T3 self cancel2 remove.
  destruct (exit_chain cancel2 remove self) as (_ & Hcancel & _).
  destruct (Hcancel [T1] T2 [T3] eq_refl eq_refl eq_refl)
    as (Hev & _ & Hno & _).
  destruct (exit_chain (fun _ => true) remove self) as (_ & _ & Hall).
  destruct (Hall T1 [T2; T3] eq_refl eq_refl) as (_ & Hfin).
  split; [exact Hev|]. split; [exact Hno|].
  rewrite (Hfin T1 [] eq_refl). reflexivity.
Defined.

End ExitExamples.

(** ** The hit map of the tab bar *)

Section HitMapFacts.
Import Py Layout Splits.

Variable get_cwidth : N -> Z.

Abbreviation span := (tab_span get_cwidth).
Abbreviation step := (tab_step get_cwidth).
Abbreviation steps self ts :=
  (fold_right (fun tab acc => tab_step get_cwidth self tab + acc) 0 ts).

Lemma mark_column (n : nat) (cb : option Callable) :
  forall (i : Z) (mh : gmap Z (option Callable)),
    (mark n cb i mh).1 = i + Z.of_nat n.
Proof.
  induction n as [|n IH]; intros i mh; cbn [mark].
  - cbn [fst]. lia.
  - rewrite IH. lia.
Qed.

Lemma mark_lookup (n : nat) (cb : option Callable) :
  forall (i : Z) (mh : gmap Z (option Callable)) (c : Z),
    (mark n cb i mh).2 !! c
    = if (i <=? c) && (c <? i + Z.of_nat n) then Some cb else mh !! c.
Proof.
  induction n as [|n IH]; intros i mh c; cbn [mark].
  - cbn [snd]. destruct (Z.leb_spec i c), (Z.ltb_spec c (i + Z.of_nat 0));
      cbn [andb]; try reflexivity; lia.
  - rewrite IH, lookup_insert.
    destruct (Z.leb_spec (i + 1) c), (Z.ltb_spec c (i + 1 + Z.of_nat n)),
      (Z.leb_spec i c), (Z.ltb_spec c (i + Z.of_nat (S n)));
      cbn [andb]; try lia; try reflexivity;
      case_decide; try lia; reflexivity.
Qed.

Lemma add_spacing_column (n : nat) (d : Z) :
  forall st : RenderState,
    column (add_spacing n d st) = column st + Z.of_nat n * d /\
    handlers (add_spacing n d st) = handlers st.
Proof.
  induction n as [|n IH]; intros st; cbn [add_spacing].
  - split; [lia|reflexivity].
  - destruct (IH {| top_line := top_line st ++ [("", [char_space])];
                    tab_line :=
                      tab_line st ++ [("class:border,bottom", [char_bottom])];
                    column := column st + d;
                    handlers := handlers st |}) as [Hc Hh].
    rewrite Hc, Hh. cbn [column handlers]. split; [lia|reflexivity].
Qed.

Lemma render_tab_column (self : TabControl) (j : Z) (tab : Tab)
    (st : RenderState) :
  column (render_tab get_cwidth self j tab st) = column st + step self tab.
Proof.
  unfold render_tab, tab_step, tab_span.
  pose proof (mark_column
    (Z.to_nat (fragment_list_width get_cwidth (title tab)))
    (Some (on_activate tab)) (column st + 1)
    (<[column st := Some (on_activate tab)]> (handlers st))) as Hm.
  destruct (mark _ _ _ _) as [i2 mh2]. cbn [fst] in Hm.
  destruct (closeable self);
    rewrite (proj1 (add_spacing_column _ _ _)); cbn [column]; lia.
Qed.

(** One tab writes the columns of its span and no other. *)
Lemma render_tab_handlers (self : TabControl) (j : Z) (tab : Tab)
    (st : RenderState) (c : Z) :
  handlers (render_tab get_cwidth self j tab st) !! c
  = if (column st <=? c) && (c <? column st + span self tab)
    then Some (tab_handler get_cwidth self tab (c - column st))
    else handlers st !! c.
Proof.
  unfold render_tab, tab_handler, tab_span.
  set (tw := Z.to_nat (fragment_list_width get_cwidth (title tab))).
  pose proof (mark_column tw (Some (on_activate tab)) (column st + 1)
    (<[column st := Some (on_activate tab)]> (handlers st))) as Hm.
  pose proof (mark_lookup tw (Some (on_activate tab)) (column st + 1)
    (<[column st := Some (on_activate tab)]> (handlers st)) c) as Hl.
  destruct (mark _ _ _ _) as [i2 mh2]. cbn [fst snd] in Hm, Hl.
  rewrite lookup_insert in Hl.
  destruct (closeable self);
    rewrite (proj2 (add_spacing_column _ _ _)); cbn [handlers andb];
    rewrite !lookup_insert, ?Hl;
    destruct (Z.leb_spec (column st) c),
      (Z.ltb_spec c (column st + (1 + Z.of_nat tw + 2 + 1))),
      (Z.ltb_spec c (column st + (1 + Z.of_nat tw + 0 + 1))),
      (Z.leb_spec (column st + 1) c),
      (Z.ltb_spec c (column st + 1 + Z.of_nat tw));
    cbn [andb]; try lia;
    repeat case_decide; try lia;
    try reflexivity;
    try (destruct (Z.eqb_spec (c - column st) (1 + Z.of_nat tw + 2 + 1 - 2));
         try lia; reflexivity).
Qed.

Lemma render_tab_steps_positive (self : TabControl) (tab : Tab) :
  2 <= span self tab /\ span self tab <= step self tab.
Proof. unfold tab_step, tab_span. destruct (closeable self); lia. Qed.

Lemma render_tabs_column (self : TabControl) (ts : list Tab) :
  forall (j : Z) (st : RenderState),
    column (render_tabs get_cwidth self j ts st) = column st + steps self ts.
Proof.
  induction ts as [|tab ts IH]; intros j st; cbn [render_tabs fold_right].
  - lia.
  - rewrite IH, render_tab_column. lia.
Qed.

Lemma steps_nonneg (self : TabControl) (ts : list Tab) : 0 <= steps self ts.
Proof.
  induction ts as [|tab ts IH]; cbn [fold_right]; [lia|].
  pose proof (render_tab_steps_positive self tab). lia.
Qed.

(** The loop over the tabs leaves the columns before its first column and
    from its last column on as they were. *)
Lemma render_tabs_frame (self : TabControl) (ts : list Tab) :
  forall (j : Z) (st : RenderState) (c : Z),
    c < column st \/ column st + steps self ts <= c ->
    handlers (render_tabs get_cwidth self j ts st) !! c = handlers st !! c.
Proof.
  induction ts as [|tab ts IH]; intros j st c Hc; cbn [render_tabs fold_right].
  - reflexivity.
  - cbn [fold_right] in Hc.
    pose proof (render_tab_steps_positive self tab).
    pose proof (steps_nonneg self ts).
    rewrite IH by (rewrite render_tab_column; lia).
    rewrite render_tab_handlers.
    destruct (Z.leb_spec (column st) c),
      (Z.ltb_spec c (column st + span self tab));
      cbn [andb]; try reflexivity; lia.
Qed.

(** The loop over the tabs gives every column of the span of a tab the
    handler of that tab. *)
Lemma render_tabs_handlers (self : TabControl) (ts : list Tab) :
  forall (j : Z) (st : RenderState) (k : nat) (tab : Tab) (o : Z),
    ts !! k = Some tab ->
    0 <= o < span self tab ->
    handlers (render_tabs get_cwidth self j ts st)
      !! (column st + steps self (take k ts) + o)
    = Some (tab_handler get_cwidth self tab o).
Proof.
  induction ts as [|t ts IH]; intros j st k tab o Hk Ho; [discriminate|].
  pose proof (render_tab_steps_positive self t).
  destruct k as [|k]; cbn [render_tabs take fold_right].
  - injection Hk as ->.
    rewrite render_tabs_frame by (rewrite render_tab_column; lia).
    rewrite render_tab_handlers.
    destruct (Z.leb_spec (column st) (column st + 0 + o)),
      (Z.ltb_spec (column st + 0 + o) (column st + span self tab));
      cbn [andb]; try lia.
    do 2 f_equal. lia.
  - cbn in Hk.
    specialize (IH (j + 1) (render_tab get_cwidth self j t st) k tab o Hk Ho).
    rewrite render_tab_column in IH.
    rewrite <- IH. f_equal. lia.
Qed.

Lemma add_spacing_initial (self : TabControl) :
  let st0 :=
    add_spacing (Z.to_nat (spacing self)) 0
      {| top_line := []; tab_line := []; column := 0;
         handlers := mouse_handlers self |} in
  column st0 = 0 /\ handlers st0 = mouse_handlers self.
Proof.
  cbv zeta. destruct (add_spacing_column (Z.to_nat (spacing self)) 0
    {| top_line := []; tab_line := []; column := 0;
       handlers := mouse_handlers self |}) as [Hc Hh].
  rewrite Hc, Hh. cbn [column handlers]. split; [lia|reflexivity].
Qed.

Lemma render_content_handlers (self : TabControl) (k : nat) (tab : Tab)
    (o : Z) :
  tabs self !! k = Some tab ->
  0 <= o < span self tab ->
  handlers (render_content get_cwidth self)
    !! (tab_start get_cwidth self k + o)
  = Some (tab_handler get_cwidth self tab o).
Proof.
  intros Hk Ho. unfold render_content, tab_start.
  destruct (add_spacing_initial self) as [Hc Hh]. cbv zeta in Hc, Hh.
  set (st1 := {| top_line := _; tab_line := _; column := _;
                 handlers := _ |}).
  rewrite <- (render_tabs_handlers self (tabs self) 0 st1 k tab o Hk Ho).
  subst st1. cbn [column]. rewrite Hc. f_equal.
Qed.

Lemma render_content_frame (self : TabControl) (c : Z) :
  c < spacing self \/
  tab_start get_cwidth self (length (tabs self)) <= c ->
  handlers (render_content get_cwidth self) !! c = mouse_handlers self !! c.
Proof.
  intros Hc. unfold render_content, tab_start in *.
  rewrite firstn_all in Hc.
  destruct (add_spacing_initial self) as [Hc0 Hh]. cbv zeta in Hc0, Hh.
  rewrite render_tabs_frame; cbn [column handlers].
  - rewrite Hh. reflexivity.
  - rewrite Hc0. lia.
Qed.

(** X3: rendering fills the hit map: every column of a tab, from its left edge
    to its right edge, holds the activate callback of that tab, except the
    column of the close glyph, which holds its close callback. *)
Theorem render_hit_map (self : TabControl) (width : Z) (j : nat) (tab : Tab)
    (o : Z) :
  tabs self !! j = Some tab ->
  0 <= o < tab_span get_cwidth self tab ->
  mouse_handlers (render get_cwidth self width).2
    !! (tab_start get_cwidth self j + o)
  = Some (if closeable self && (o =? tab_span get_cwidth self tab - 2)
          then on_close tab
          else Some (on_activate tab)).
Proof.
  intros Hj Ho. cbn [render snd mouse_handlers].
  exact (render_content_handlers self j tab o Hj Ho).
Qed.

(** X4: rendering never clears the hit map: a column before the first tab or
    after the last tab and its spacing keeps the entry it had, so the
    columns of tabs that are gone still hold their callbacks; and every
    column that had an entry has one afterwards. *)
Theorem render_keeps_stale_handlers (self : TabControl) (width : Z) (c : Z) :
  (c < spacing self \/
   tab_start get_cwidth self (length (tabs self)) <= c ->
   mouse_handlers (render get_cwidth self width).2 !! c
   = mouse_handlers self !! c) /\
  (is_Some (mouse_handlers self !! c) ->
   is_Some (mouse_handlers (render get_cwidth self width).2 !! c)).
Proof.
  split.
  - intros Hc. cbn [render snd mouse_handlers].
    exact (render_content_frame self c Hc).
  - cbn [render snd mouse_handlers]. unfold render_content.
    destruct (add_spacing_initial self) as [Hc0 Hh]. cbv zeta in Hc0, Hh.
    set (st1 := {| top_line := _; tab_line := _; column := _;
                   handlers := _ |}).
    assert (Hst : handlers st1 = mouse_handlers self) by exact Hh.
    rewrite <- Hst. clearbody st1. clear.
    generalize 0 at 1. revert st1.
    induction (tabs self) as [|tab ts IH]; intros st j Hsome;
      cbn [render_tabs]; [exact Hsome|].
    apply IH. rewrite render_tab_handlers.
    destruct (_ && _); [eexists; reflexivity|exact Hsome].
Qed.

(** X5: rendering and clicking compose: after a render, a mouse-up on the tab
    row at a column of a tab calls the callback the hit map holds there and
    nothing else; under the close glyph of a tab with no close callback
    nothing is called and the event is not handled. *)
Theorem click_after_render (self : TabControl) (width : Z) (j : nat)
    (tab : Tab) (o : Z) :
  tabs self !! j = Some tab ->
  0 <= o < tab_span get_cwidth self tab ->
  mouse_handler (render get_cwidth self width).2
    (mkMouseEvent (tab_start get_cwidth self j + o) 1 MOUSE_UP)
  = match tab_handler get_cwidth self tab o with
    | Some handler => ([handler], Ok ReturnNone)
    | None => ([], Ok NotImplemented)
    end.
Proof.
  intros Hj Ho. unfold mouse_handler.
  cbn [position_x position_y event_type is_mouse_up render snd mouse_handlers].
  change (1 =? 1) with true. cbn [andb].
  rewrite (render_content_handlers self j tab o Hj Ho).
  destruct (tab_handler _ _ _ _); reflexivity.
Qed.

End HitMapFacts.

Section HitMapExamples.
Import Py Layout Splits.

(** Two closeable tabs titled [ab] and [c] with spacing 1: the second tab
    starts at column 8, and its close glyph is at column 11. *)
Lemma render_hit_map_witness :
  let t0 := mkTab [("", [97%N; 98%N])] 10%nat None (Some 12%nat) in
  let t1 := mkTab [("", [99%N])] 20%nat None (Some 22%nat) in
  let self := TabControl_init [t0; t1] 0 1 true in
  mouse_handlers (render (fun _ => 1) self 40).2 !! 11 = Some (Some 22%nat).
Proof.
  intros t0 t1 self.
  apply (render_hit_map (fun _ => 1) self 40 1 t1 3); [reflexivity|].
  vm_compute. split; [discriminate|reflexivity].
Defined.

(** A control that had three tabs and is rendered again with none keeps the
    entry of column 9. *)
Lemma render_keeps_stale_handlers_witness :
  let self :=
    {| tabs := []; spacing := 1; closeable := false; active := 0;
       mouse_handlers := {[ 9 := Some 30%nat ]} |} in
  mouse_handlers (render (fun _ => 1) self 40).2 !! 9 = Some (Some 30%nat).
Proof.
  intros self.
  destruct (render_keeps_stale_handlers (fun _ => 1) self 40 9) as [Hkeep _].
  transitivity (mouse_handlers self !! 9); [|reflexivity].
  apply Hkeep. right. vm_compute. discriminate.
Defined.

Lemma click_after_render_witness :
  let t0 := mkTab [("", [97%N; 98%N])] 10%nat None (Some 12%nat) in
  let t1 := mkTab [("", [99%N])] 20%nat None (Some 22%nat) in
  let self := TabControl_init [t0; t1] 0 1 true in
  mouse_handler (render (fun _ => 1) self 40).2 (mkMouseEvent 9 1 MOUSE_UP)
  = ([20%nat], Ok ReturnNone).
Proof.
  intros t0 t1 self.
  apply (click_after_render (fun _ => 1) self 40 1 t1 1); [reflexivity|].
  vm_compute. split; [discriminate|reflexivity].
Defined.

End HitMapExamples.

(** ** Scrolling over the tab bar *)

Section ScrollExamples.
Import Py Layout.

(** Three tabs, the second active: scrolling down calls the deactivate
    callback of the second tab and raises. *)
Lemma scroll_down_raises_witness :
  let t0 := mkTab [] 10%nat (Some 11%nat) None in
  let t1 := mkTab [] 20%nat (Some 21%nat) None in
  let t2 := mkTab [] 30%nat (Some 31%nat) None in
  mouse_handler (TabControl_init [t0; t1; t2] 1 1 false)
    (mkMouseEvent 0 0 SCROLL_DOWN)
  = ([21%nat], Raise IndexError).
Proof.
  intros t0 t1 t2.
  destruct (scroll_down_raises (TabControl_init [t0; t1; t2] 1 1 false) 0 0)
    as (old & Hold & Hscroll); [cbn; lia|].
  vm_compute in Hold. injection Hold as <-. exact Hscroll.
Defined.

(** Three tabs, the second active: scrolling up calls the deactivate
    callback of the second tab, then the activate callback of the first. *)
Lemma scroll_up_moves_witness :
  let t0 := mkTab [] 10%nat (Some 11%nat) None in
  let t1 := mkTab [] 20%nat (Some 21%nat) None in
  let t2 := mkTab [] 30%nat (Some 31%nat) None in
  mouse_handler (TabControl_init [t0; t1; t2] 1 1 false)
    (mkMouseEvent 0 0 SCROLL_UP)
  = ([21%nat; 10%nat], Ok ReturnNone).
Proof.
  intros t0 t1 t2.
  destruct (scroll_up_moves (TabControl_init [t0; t1; t2] 1 1 false) 0 0)
    as (old & new & Hold & Hnew & Hscroll); [cbn; lia|].
  vm_compute in Hold, Hnew. injection Hold as <-. injection Hnew as <-.
  exact Hscroll.
Defined.

End ScrollExamples.

(** ** What is drawn and what is clickable *)

Section AlignFacts.
Import Py Layout Splits.

Variable get_cwidth : N -> Z.

Abbreviation width_of := (fragment_list_width get_cwidth).

Ltac decide_markers :=
  repeat match goal with
         | |- context [str_in ?a ?b] =>
             let v := eval vm_compute in (str_in a b) in
             change (str_in a b) with v
         end;
  cbn match.

Lemma add_spacing_top (n : nat) (d : Z) :
  forall st : RenderState,
    width_of (top_line (add_spacing n d st))
    = width_of (top_line st) + Z.of_nat n * get_cwidth char_space.
Proof.
  induction n as [|n IH]; intros st; cbn [add_spacing].
  - lia.
  - rewrite IH. cbn [top_line]. rewrite fragment_list_width_app.
    cbn. lia.
Qed.

Lemma render_tab_top (self : TabControl) (j : Z) (tab : Tab)
    (st : RenderState) :
  width_of (top_line (render_tab get_cwidth self j tab st))
  = width_of (top_line st)
    + Z.of_nat (Z.to_nat (width_of (title tab) + 2)) * get_cwidth char_top
    + (if closeable self then 2 * get_cwidth char_top else 0)
    + Z.of_nat (Z.to_nat (spacing self)) * get_cwidth char_space.
Proof.
  unfold render_tab.
  destruct (mark _ _ _ _) as [i2 mh2].
  destruct (closeable self);
    rewrite add_spacing_top; cbn [top_line];
    rewrite !fragment_list_width_app;
    destruct (active self =? j); cbn [fragment_list_width];
    decide_markers; rewrite !times_width; cbn; lia.
Qed.

Section Glyphs.

Hypothesis top_1 : get_cwidth char_top = 1.
Hypothesis left_1 : get_cwidth char_left = 1.
Hypothesis right_1 : get_cwidth char_right = 1.
Hypothesis space_1 : get_cwidth char_space = 1.
Hypothesis close_1 : get_cwidth char_close = 1.

Lemma render_tab_aligned (self : TabControl) (j : Z) (tab : Tab)
    (st : RenderState) :
  0 <= width_of (title tab) ->
  width_of (top_line st) = width_of (tab_line st) ->
  column st = width_of (tab_line st) ->
  let st' := render_tab get_cwidth self j tab st in
  width_of (top_line st') = width_of (tab_line st') /\
  column st' = width_of (tab_line st').
Proof.
  intros Htitle Htop Hcol st'. subst st'.
  rewrite render_tab_top, render_tab_width, render_tab_column.
  unfold tab_width, spacing_width, tab_step, tab_span.
  change (get_cwidth char_bottom) with (get_cwidth char_top).
  rewrite top_1, left_1, right_1, space_1, close_1.
  destruct (closeable self); lia.
Qed.

Lemma render_tabs_aligned (self : TabControl) (ts : list Tab) :
  forall (j : Z) (st : RenderState),
    Forall (fun tab => 0 <= width_of (title tab)) ts ->
    width_of (top_line st) = width_of (tab_line st) ->
    column st = width_of (tab_line st) ->
    let st' := render_tabs get_cwidth self j ts st in
    width_of (top_line st') = width_of (tab_line st') /\
    column st' = width_of (tab_line st').
Proof.
  induction ts as [|tab ts IH]; intros j st Hts Htop Hcol; cbn [render_tabs].
  - split; assumption.
  - inversion Hts as [|? ? Htab Hrest]; subst.
    destruct (render_tab_aligned self j tab st Htab Htop Hcol) as [Ht Hc].
    exact (IH (j + 1) _ Hrest Ht Hc).
Qed.

End Glyphs.

(** X6: with the glyphs of the bar one column wide, titles of no negative
    width and a spacing that is not negative, the top border is as wide as
    the row of the tabs, and the column counter that indexes the hit map
    ends at that width: the hit map is indexed by the columns at which the
    tabs are drawn. *)
Theorem render_columns_align (self : TabControl) :
  get_cwidth char_top = 1 ->
  get_cwidth char_left = 1 ->
  get_cwidth char_right = 1 ->
  get_cwidth char_space = 1 ->
  get_cwidth char_close = 1 ->
  0 <= spacing self ->
  Forall (fun tab => 0 <= fragment_list_width get_cwidth (title tab))
    (tabs self) ->
  let st := render_content get_cwidth self in
  fragment_list_width get_cwidth (top_line st)
  = fragment_list_width get_cwidth (tab_line st) /\
  column st = fragment_list_width get_cwidth (tab_line st) /\
  column st = tab_start get_cwidth self (length (tabs self)).
Proof.
  intros Htop Hleft Hright Hspace Hclose Hsp Hts st.
  assert (Hst : width_of (top_line st) = width_of (tab_line st) /\
                column st = width_of (tab_line st)).
  { subst st. unfold render_content.
    apply (render_tabs_aligned Htop Hleft Hright Hspace Hclose); [exact Hts|..];
      cbn [top_line tab_line column].
    - rewrite add_spacing_top, add_spacing_width.
      change (get_cwidth char_bottom) with (get_cwidth char_top).
      rewrite Htop, Hspace. reflexivity.
    - rewrite (proj1 (add_spacing_column _ _ _)), add_spacing_width.
      change (get_cwidth char_bottom) with (get_cwidth char_top).
      rewrite Htop. cbn. lia. }
  destruct Hst as [H1 H2]. split; [exact H1|]. split; [exact H2|].
  subst st. unfold render_content, tab_start.
  rewrite render_tabs_column, firstn_all. cbn [column].
  rewrite (proj1 (add_spacing_column _ _ _)). cbn. lia.
Qed.

End AlignFacts.

Section AlignExamples.
Import Py Layout Splits.

Lemma render_columns_align_witness :
  let self :=
    TabControl_init [mkTab [("", [97%N; 98%N])] 10%nat None None] 0 1 true in
  let st := render_content (fun _ => 1) self in
  fragment_list_width (fun _ => 1) (top_line st) = 8 /\
  fragment_list_width (fun _ => 1) (tab_line st) = 8 /\
  column st = 8.
Proof.
  intros self st.
  destruct (render_columns_align (fun _ => 1) self
              eq_refl eq_refl eq_refl eq_refl eq_refl)
    as (Htop & Hcol & _).
  - vm_compute. discriminate.
  - repeat constructor. vm_compute. discriminate.
  - fold st in Htop, Hcol. rewrite Htop, Hcol. repeat split; reflexivity.
Defined.

End AlignExamples.


(** ** Stacked, accordion and tabbed splits *)

Section SplitFacts.
Import Py Layout Splits.

Lemma nth_error_is_lookup {A : Type} (l : list A) :
  forall j : nat, nth_error l j = l !! j.
Proof.
  induction l as [|a l IH]; intros [|j]; try reflexivity. exact (IH j).
Qed.

Lemma index_lookup {A : Type} (l : list A) (j : nat) (a : A) :
  l !! j = Some a -> index l (Z.of_nat j) = Ok a.
Proof.
  intros Hj. pose proof (lookup_lt_Some _ _ _ Hj) as Hlt.
  unfold index.
  destruct (Z.ltb_spec (Z.of_nat j) 0); [lia|].
  destruct (Z.leb_spec 0 (Z.of_nat j)); [|lia].
  destruct (Z.ltb_spec (Z.of_nat j) (Z.of_nat (length l))); [|lia].
  cbn [andb]. rewrite Nat2Z.id.
  rewrite nth_error_is_lookup, Hj. reflexivity.
Qed.

Lemma index_past_end {A : Type} (l : list A) (i : Z) :
  Z.of_nat (length l) <= i -> index l i = Raise IndexError.
Proof.
  intros Hi. unfold index.
  destruct (Z.ltb_spec i 0); [lia|].
  destruct (Z.ltb_spec i (Z.of_nat (length l))); [lia|].
  rewrite andb_false_r. reflexivity.
Qed.

(** What the setter of [active] leaves in the fields, whatever it does
    besides. *)
Lemma set_active_fields (self : StackedSplit) (value : option Z) :
  let done := set_active self value in
  _active done.1.1
  = match value with
    | Some v => Some (Z.max 0 (Z.min v (Z.of_nat (length (children self)))))
    | None => None
    end /\
  _children done.1.1 = _children self /\
  _titles done.1.1 = _titles self.
Proof.
  cbv zeta. unfold set_active.
  set (value' := match value with Some v => _ | None => None end).
  destruct (option_Z_eqb value' (_active self)) eqn:E; cbn [negb].
  - apply option_Z_eqb_eq in E. cbn [fst]. auto.
  - destruct value'; [destruct (index _ _)|]; cbn; auto.
Qed.

(** X7: assigning the same value to [active] a second time does nothing: no
    refresh, no change event, no focus, and no error, also when the first
    assignment raised. *)
Theorem set_active_twice (self : StackedSplit) (value : option Z) :
  set_active (set_active self value).1.1 value
  = ((set_active self value).1.1, [], Ok tt).
Proof.
  destruct (set_active_fields self value) as (Ha & Hc & _). cbv zeta in Ha, Hc.
  set (done := (set_active self value).1.1) in *.
  unfold set_active at 1. unfold children. rewrite Hc. fold (children self).
  rewrite Ha.
  replace (option_Z_eqb _ _) with true; [reflexivity|].
  symmetry. apply option_Z_eqb_eq. reflexivity.
Qed.

(** X8: assigning an index from the number of children on stores the number of
    children, at which there is no child: the split is left with an active
    index that [active_child] cannot look up.  The assignment itself raises
    unless that index was stored already. *)
Theorem set_active_past_end (self : StackedSplit) (v : Z) :
  Z.of_nat (length (children self)) <= v ->
  let done := set_active self (Some v) in
  StackedSplit_active done.1.1 = Some (Z.of_nat (length (children self))) /\
  active_child done.1.1 = ChildIndexError /\
  (done.2 = Raise IndexError \/
   StackedSplit_active self = Some (Z.of_nat (length (children self))) /\
   done = (self, [], Ok tt)).
Proof.
  intros Hv done.
  destruct (set_active_fields self (Some v)) as (Ha & Hc & _).
  cbv zeta in Ha, Hc. fold done in Ha, Hc.
  rewrite Z.min_r, Z.max_r in Ha by lia.
  split; [exact Ha|]. split.
  - unfold active_child, StackedSplit_active, children. rewrite Ha, Hc.
    rewrite index_past_end by (unfold children; lia). reflexivity.
  - subst done. unfold set_active.
    rewrite Z.min_r, Z.max_r by lia.
    destruct (option_Z_eqb _ _) eqn:E; cbn [negb].
    + right. apply option_Z_eqb_eq in E. split; [symmetry; exact E|reflexivity].
    + left. cbv beta iota zeta. unfold children at 1. cbn [_children].
      rewrite index_past_end by (unfold children; lia). reflexivity.
Qed.

(** X9: replacing the children leaves the active index as it is: when the new
    list is too short for it, [active_child] raises, and when it reaches the
    index, the active child is the new child at that position. *)
Theorem set_children_keeps_active (self : StackedSplit)
    (value : list Container) :
  let self' := (set_children self value).1 in
  StackedSplit_active self' = StackedSplit_active self /\
  children self' = value /\
  (forall i : Z,
     StackedSplit_active self = Some i ->
     Z.of_nat (length value) <= i ->
     active_child self' = ChildIndexError) /\
  (forall (j : nat) (c : Container),
     StackedSplit_active self = Some (Z.of_nat j) ->
     value !! j = Some c ->
     active_child self' = Child c).
Proof.
  cbv zeta. split; [reflexivity|]. split; [reflexivity|]. split.
  - intros i Hi Hlen. unfold active_child, StackedSplit_active in *.
    cbn [set_children fst _active]. rewrite Hi.
    unfold children. cbn [_children].
    rewrite index_past_end by lia. reflexivity.
  - intros j c Hj Hc. unfold active_child, StackedSplit_active in *.
    cbn [set_children fst _active]. rewrite Hj.
    unfold children. cbn [_children].
    rewrite (index_lookup _ _ _ Hc). reflexivity.
Qed.

(** X10: toggling a section of an accordion: the expanded section collapses and
    leaves none expanded; any other section expands, whichever was expanded
    before, and its child is focused.  So toggling the same section twice
    gives back the state before exactly when no other section was
    expanded. *)
Theorem toggle_expands_or_collapses (self : StackedSplit) (j : nat)
    (child : Container) :
  children self !! j = Some child ->
  let index := Z.of_nat j in
  let done := toggle self index in
  (StackedSplit_active self = Some index ->
   StackedSplit_active done.1.1 = None /\
   done.1.2 = [Refresh; FireOnChange]) /\
  (StackedSplit_active self <> Some index ->
   StackedSplit_active done.1.1 = Some index /\
   done.1.2 = [Refresh; FireOnChange; Focus child]) /\
  done.2 = Ok tt /\
  StackedSplit_active (toggle done.1.1 index).1.1
  = (if option_Z_eqb (StackedSplit_active self) (Some index)
     then Some index else None).
Proof.
  intros Hj index done.
  pose proof (lookup_lt_Some _ _ _ Hj) as Hlt.
  pose proof (index_lookup _ _ _ Hj) as Hidx. fold index in Hidx.
  assert (Hclamp : forall s : StackedSplit,
            _children s = _children self ->
            Z.max 0 (Z.min index (Z.of_nat (length (children s)))) = index).
  { intros s Hs. unfold children in *. rewrite Hs. subst index. lia. }
  assert (Hcollapse : forall s : StackedSplit,
            _children s = _children self ->
            _active s = Some index ->
            toggle s index
            = ({| _children := _children s; _titles := _titles s;
                  _active := None |}, [Refresh; FireOnChange], Ok tt)).
  { intros s Hs Ha. unfold toggle, StackedSplit_active. rewrite Ha.
    replace (option_Z_eqb (Some index) (Some index)) with true
      by (symmetry; apply option_Z_eqb_eq; reflexivity).
    cbn [negb]. unfold set_active. rewrite Ha. reflexivity. }
  assert (Hexpand : forall s : StackedSplit,
            _children s = _children self ->
            _active s <> Some index ->
            toggle s index
            = ({| _children := _children s; _titles := _titles s;
                  _active := Some index |},
               [Refresh; FireOnChange; Focus child], Ok tt)).
  { intros s Hs Ha. unfold toggle, StackedSplit_active.
    destruct (option_Z_eqb (_active s) (Some index)) eqn:E.
    { apply option_Z_eqb_eq in E. contradiction. }
    cbn [negb]. unfold set_active. rewrite (Hclamp s Hs).
    destruct (option_Z_eqb (Some index) (_active s)) eqn:E'.
    { apply option_Z_eqb_eq in E'. congruence. }
    cbn [negb]. unfold children at 1. cbn [_children]. rewrite Hs.
    unfold children in Hidx. rewrite Hidx. reflexivity. }
  unfold StackedSplit_active in *.
  destruct (option_Z_eqb (_active self) (Some index)) eqn:E.
  - apply option_Z_eqb_eq in E.
    assert (Hd : done = ({| _children := _children self;
                            _titles := _titles self; _active := None |},
                         [Refresh; FireOnChange], Ok tt))
      by (apply Hcollapse; [reflexivity|exact E]).
    rewrite Hd. cbn [fst snd _active].
    split; [auto|]. split; [intros; contradiction|]. split; [reflexivity|].
    rewrite Hexpand; [reflexivity|reflexivity|discriminate].
  - assert (Hne : _active self <> Some index).
    { intros Heq. rewrite Heq in E.
      rewrite (proj2 (option_Z_eqb_eq _ _) eq_refl) in E. discriminate. }
    assert (Hd : done = ({| _children := _children self;
                            _titles := _titles self;
                            _active := Some index |},
                         [Refresh; FireOnChange; Focus child], Ok tt))
      by (apply Hexpand; [reflexivity|exact Hne]).
    rewrite Hd. cbn [fst snd _active].
    split; [intros; contradiction|]. split; [auto|]. split; [reflexivity|].
    rewrite Hcollapse; reflexivity.
Qed.

(** An event on the title of a section that is not a mouse-up changes
    nothing. *)
Lemma accordion_ignores_other_events (self : StackedSplit) (index : Z)
    (x y : Z) (t : MouseEventType) :
  t <> MOUSE_UP ->
  accordion_mouse_handler self index (mkMouseEvent x y t) = (self, [], Ok tt).
Proof. intros Ht. destruct t; [contradiction|reflexivity..]. Qed.

Lemma tabs_from_lookup (titles : list StyleAndTextTuples) :
  forall (i j : nat) (t : StyleAndTextTuples),
    titles !! j = Some t ->
    tabs_from i titles !! j
    = Some {| title := t; on_activate := (i + j)%nat;
              on_deactivate := None; on_close := None |}.
Proof.
  induction titles as [|t0 titles IH]; intros i j t Hj; [discriminate|].
  destruct j as [|j]; cbn [tabs_from].
  - injection Hj as ->. rewrite Nat.add_0_r. reflexivity.
  - cbn in Hj. cbn [lookup list_lookup].
    change (tabs_from (S i) titles !! j
            = Some {| title := t; on_activate := (i + S j)%nat;
                      on_deactivate := None; on_close := None |}).
    rewrite (IH (S i) j t Hj), Nat.add_succ_r. reflexivity.
Qed.

Lemma refresh_synced (self : TabbedSplit) :
  closeable (control self) = false -> synced (refresh self).
Proof.
  intros Hc. unfold synced, refresh. cbn [split control tabs closeable active].
  split; [reflexivity|]. split; [exact Hc|].
  intros i Hi. rewrite Hi. reflexivity.
Qed.

Lemma tabbed_set_active_synced (self : TabbedSplit) (value : option Z) :
  synced self -> synced (tabbed_set_active self value).1.1.
Proof.
  intros Hs. pose proof Hs as (Ht & Hc & Ha).
  unfold tabbed_set_active, set_active.
  destruct (negb (option_Z_eqb _ (_active (split self)))).
  - destruct (match value with Some v => _ | None => None end) as [v|];
      [destruct (index _ _)|]; cbn [existsb is_refresh orb fst];
      apply refresh_synced; exact Hc.
  - cbn [existsb fst]. destruct self. exact Hs.
Qed.

(** X11: the tab bar of a tabbed split follows the split: after construction and
    after every assignment to [active], [children] or [titles], the tabs of
    the bar are the titles of the split, each with the callback that selects
    its position, and the active index of the bar is the active index of the
    split unless that is [None]. *)
Theorem tabbed_split_synced (children0 : list Container)
    (titles : list StyleAndTextTuples) (i : Z) :
  synced (TabbedSplit_init children0 titles i) /\
  forall self : TabbedSplit,
    synced self ->
    (forall value : option Z, synced (tabbed_set_active self value).1.1) /\
    (forall value : list Container, synced (tabbed_set_children self value)) /\
    (forall value : list StyleAndTextTuples,
       synced (tabbed_set_titles self value)).
Proof.
  split.
  - unfold synced, TabbedSplit_init. cbn. split; [reflexivity|].
    split; [reflexivity|]. intros k Hk. congruence.
  - intros self Hs. pose proof Hs as (_ & Hc & _).
    split; [intros value; apply tabbed_set_active_synced; exact Hs|].
    split; intros value; apply refresh_synced; exact Hc.
Qed.

Section Click.

Variable get_cwidth : N -> Z.

(** X12: clicking a tab of a tabbed split selects the child at its position: a
    mouse-up on any column of the tab, after the bar is rendered, calls the
    callback of that tab and no other, and that callback makes the position
    the active index of the split and of the bar, without an error, so that
    [active_child] is the child at the position. *)
Theorem tabbed_click_selects (self : TabbedSplit) (width : Z) (j : nat)
    (t : StyleAndTextTuples) (child : Container) (o : Z) :
  synced self ->
  _titles (split self) !! j = Some t ->
  children (split self) !! j = Some child ->
  0 <= o < 2 + Z.of_nat (Z.to_nat (fragment_list_width get_cwidth t)) ->
  let bar := (render get_cwidth (control self) width).2 in
  mouse_handler bar
    (mkMouseEvent (tab_start get_cwidth (control self) j + o) 1 MOUSE_UP)
  = ([j], Ok ReturnNone) /\
  let done := call_activate {| split := split self; control := bar |} j in
  done.2 = Ok tt /\
  StackedSplit_active (split done.1.1) = Some (Z.of_nat j) /\
  active (control done.1.1) = Z.of_nat j /\
  active_child (split done.1.1) = Child child.
Proof.
  intros Hs Ht Hchild Ho bar.
  pose proof Hs as (Htabs & Hclose & Hact).
  pose proof (tabs_from_lookup _ 0 j t Ht) as Htab. cbn [Nat.add] in Htab.
  fold (load_tabs (split self)) in Htab. rewrite <- Htabs in Htab.
  split.
  - assert (Hspan : 0 <= o < tab_span get_cwidth (control self)
                               {| title := t; on_activate := j;
                                  on_deactivate := None; on_close := None |}).
    { unfold tab_span. rewrite Hclose. cbn [title]. lia. }
    subst bar. unfold mouse_handler.
    cbn [position_x position_y event_type is_mouse_up render snd
         mouse_handlers].
    change (1 =? 1) with true. cbn [andb].
    rewrite (render_content_handlers get_cwidth (control self) j _ o
               Htab Hspan).
    unfold tab_handler. rewrite Hclose. reflexivity.
  - intros done.
    pose proof (lookup_lt_Some _ _ _ Hchild) as Hlt.
    pose proof (index_lookup _ _ _ Hchild) as Hidx.
    subst done. unfold call_activate, tabbed_set_active, set_active.
    cbn [split control].
    rewrite Z.min_l, Z.max_r by lia.
    destruct (option_Z_eqb (Some (Z.of_nat j)) (_active (split self))) eqn:E;
      cbn [negb].
    + apply option_Z_eqb_eq in E. cbn [existsb fst snd split control].
      split; [reflexivity|]. split; [symmetry; exact E|].
      split; [subst bar; cbn [render snd active]; apply Hact; symmetry;
              exact E|].
      unfold active_child, StackedSplit_active. rewrite <- E, Hidx.
      reflexivity.
    + cbv beta iota zeta. unfold children in *. cbn [_children].
      rewrite Hidx.
      cbn [existsb is_refresh orb fst snd refresh split control active
           StackedSplit_active _active].
      split; [reflexivity|]. split; [reflexivity|]. split; [reflexivity|].
      unfold active_child, StackedSplit_active, children.
      cbn [_active _children]. rewrite Hidx. reflexivity.
Qed.

End Click.

End SplitFacts.

Section SplitExamples.
Import Py Layout Splits.

Lemma set_active_past_end_witness :
  let self := StackedSplit_init [5; 6]%nat [[]; []] 0 in
  StackedSplit_active (set_active self (Some 7)).1.1 = Some 2 /\
  active_child (set_active self (Some 7)).1.1 = ChildIndexError.
Proof.
  intros self.
  destruct (set_active_past_end self 7) as (Ha & Hc & _); [cbn; lia|].
  split; [exact Ha|exact Hc].
Defined.

Lemma set_children_keeps_active_witness :
  let self := StackedSplit_init [5; 6; 7]%nat [[]; []; []] 2 in
  active_child (set_children self [8]%nat).1 = ChildIndexError /\
  active_child (set_children self [8; 9; 10]%nat).1 = Child 10%nat.
Proof.
  intros self. split.
  - destruct (set_children_keeps_active self [8]%nat) as (_ & _ & Hshort & _).
    apply (Hshort 2); [reflexivity|cbn; lia].
  - destruct (set_children_keeps_active self [8; 9; 10]%nat)
      as (_ & _ & _ & Hlong).
    apply (Hlong 2%nat); reflexivity.
Defined.

Lemma toggle_expands_or_collapses_witness :
  let self := StackedSplit_init [5; 6]%nat [[]; []] 0 in
  StackedSplit_active (toggle self 1).1.1 = Some 1 /\
  StackedSplit_active (toggle (toggle self 1).1.1 1).1.1 = None.
Proof.
  intros self.
  destruct (toggle_expands_or_collapses self 1%nat 6%nat eq_refl)
    as (_ & Hexpand & _ & Htwice).
  split.
  - apply Hexpand. discriminate.
  - exact Htwice.
Defined.

Lemma tabbed_split_synced_witness :
  let self := TabbedSplit_init [5; 6]%nat [[]; []] 0 in
  synced self /\ synced (tabbed_set_active self (Some 1)).1.1.
Proof.
  intros self.
  destruct (tabbed_split_synced [5; 6]%nat [[]; []] 0) as [Hinit Hkeep].
  split; [exact Hinit|]. apply (Hkeep self Hinit).
Defined.

(** Two children titled [ab] and [c]: the second tab starts at column 6, and
    a click on column 7 selects the second child. *)
Lemma tabbed_click_selects_witness :
  let self :=
    TabbedSplit_init [5; 6]%nat [[("", [97%N; 98%N])]; [("", [99%N])]] 0 in
  let bar := (render (fun _ => 1) (control self) 40).2 in
  mouse_handler bar (mkMouseEvent 7 1 MOUSE_UP) = ([1%nat], Ok ReturnNone) /\
  active_child
    (split
       (call_activate {| split := split self; control := bar |} 1%nat).1.1)
  = Child 6%nat.
Proof.
  intros self bar.
  assert (Hinit : synced self).
  { split; [reflexivity|]. split; [reflexivity|].
    intros i Hi. injection Hi as <-. reflexivity. }
  destruct (tabbed_click_selects (fun _ => 1) self 40 1%nat [("", [99%N])]
              6%nat 1
              Hinit eq_refl eq_refl)
    as (Hclick & _ & _ & _ & Hchild).
  - vm_compute. split; [discriminate|reflexivity].
  - split; [exact Hclick|exact Hchild].
Defined.

End SplitExamples.

(** ** Sorting by a key *)

Section SortedFacts.
Import Py.

Context {A : Type} (key : A -> Z).

Abbreviation by_key := (fun a b : A => key a <= key b).

Lemma insert_key_perm (x : A) (l : list A) :
  Permutation (insert_key key x l) (x :: l).
Proof.
  induction l as [|y l IH]; cbn [insert_key]; [reflexivity|].
  destruct (key x <=? key y); [reflexivity|].
  rewrite IH. apply perm_swap.
Qed.

Lemma sorted_perm (l : list A) : Permutation (sorted key l) l.
Proof.
  induction l as [|x l IH]; cbn [sorted]; [reflexivity|].
  rewrite insert_key_perm, IH. reflexivity.
Qed.

Lemma insert_key_sorted (x : A) (l : list A) :
  StronglySorted by_key l -> StronglySorted by_key (insert_key key x l).
Proof.
  induction 1 as [|y l Hl IH Hy]; cbn [insert_key].
  - repeat constructor.
  - destruct (Z.leb_spec (key x) (key y)) as [Hle|Hgt].
    + constructor; [constructor; assumption|].
      constructor; [exact Hle|].
      eapply Forall_impl; [exact Hy|]. cbn. intros. lia.
    + constructor; [exact IH|].
      rewrite insert_key_perm. constructor; [lia|exact Hy].
Qed.

Lemma sorted_sorted (l : list A) : StronglySorted by_key (sorted key l).
Proof.
  induction l as [|x l IH]; cbn [sorted]; [constructor|].
  apply insert_key_sorted, IH.
Qed.

Lemma insert_key_filter (k : Z) (x : A) (l : list A) :
  List.filter (fun y => key y =? k) (insert_key key x l)
  = List.filter (fun y => key y =? k) (x :: l).
Proof.
  induction l as [|y l IH]; cbn [insert_key]; [reflexivity|].
  destruct (Z.leb_spec (key x) (key y)) as [Hle|Hgt]; [reflexivity|].
  cbn [List.filter] in *. rewrite IH.
  destruct (Z.eqb_spec (key x) k), (Z.eqb_spec (key y) k);
    try reflexivity; lia.
Qed.

(** The sort is stable: the items of any one key are in the order they
    had. *)
Lemma sorted_filter (k : Z) (l : list A) :
  List.filter (fun y => key y =? k) (sorted key l)
  = List.filter (fun y => key y =? k) l.
Proof.
  induction l as [|x l IH]; cbn [sorted]; [reflexivity|].
  rewrite insert_key_filter. cbn [List.filter]. rewrite IH. reflexivity.
Qed.

End SortedFacts.

(** ** Ranks and the data of an output *)

Section RankFacts.
Import Py CellOutputs.

Lemma rank_text_html (data : string) :
  _calculate_mime_rank ("text/html", data)
  = if str_in "<" data then 8 else 10.
Proof.
  unfold _calculate_mime_rank, MIME_ORDER. cbn [rank_from].
  set (b := str_in ansi_marker data). set (c := str_in "<" data).
  clearbody b c. destruct b, c; reflexivity.
Qed.

(** A path without parts matches no relative pattern. *)
Lemma no_parts_no_match (mime pattern : string) :
  parts (parse_path mime) = [] ->
  root (parse_path pattern) = "" ->
  path_match mime pattern = false.
Proof.
  intros Hmime Hroot. unfold path_match. rewrite Hroot, Hmime.
  destruct (parts (parse_path pattern)); reflexivity.
Qed.

(** X14: the rank of a MIME type is a position of the table, from 0 to 10,
    whenever its path has a part, and 999 exactly for the MIME strings whose
    path has none, such as the empty string. *)
Theorem mime_rank_range (mime data : string) :
  (parts (parse_path mime) = [] ->
   _calculate_mime_rank (mime, data) = 999) /\
  (parts (parse_path mime) <> [] ->
   0 <= _calculate_mime_rank (mime, data) <= 10).
Proof.
  split.
  - intros Hparts. unfold _calculate_mime_rank, MIME_ORDER. cbn [rank_from].
    repeat match goal with
           | |- context [path_match mime ?p] =>
               rewrite (no_parts_no_match mime p Hparts eq_refl)
           end.
    reflexivity.
  - intros Hparts.
    destruct (String.eqb_spec mime "text/plain") as [->|N1].
    { rewrite rank_text_plain. destruct (str_in _ _); lia. }
    destruct (String.eqb_spec mime "text/html") as [->|N2].
    { rewrite rank_text_html. destruct (str_in _ _); lia. }
    unfold _calculate_mime_rank, MIME_ORDER. cbn [rank_from].
    rewrite (proj2 (String.eqb_neq _ _) N1), (proj2 (String.eqb_neq _ _) N2).
    cbn [andb]. rewrite (wildcard_matches mime Hparts).
    repeat match goal with
           | |- context [path_match mime ?p] => destruct (path_match mime p)
           end; lia.
Qed.

(** X15: an output that offers its value as plain text and as HTML, in either
    order, and has no MIME type selected: the HTML is shown exactly when it
    holds a [<] and the plain text holds no ANSI escape marker, and the plain
    text otherwise. *)
Theorem html_or_plain_selected (self : CellOutput) (plain html : string) :
  _selected_mime self = None ->
  data_items (_json self) = [("text/plain", plain); ("text/html", html)] \/
  data_items (_json self) = [("text/html", html); ("text/plain", plain)] ->
  selected_mime self
  = Ok (if str_in "<" html && negb (str_in ansi_marker plain)
        then "text/html" else "text/plain").
Proof.
  intros Hsel Hdata. unfold selected_mime, CellOutput_data. rewrite Hsel.
  destruct Hdata as [-> | ->]; cbn [sorted insert_key];
    rewrite rank_text_plain, rank_text_html;
    destruct (str_in "<" html), (str_in ansi_marker plain); reflexivity.
Qed.

(** X16: the [data] property returns the entries of the output, all of them and
    no other, ordered by rank, and entries of the same rank in the order
    they had. *)
Theorem data_sorted_by_rank (self : CellOutput) :
  Permutation (CellOutput_data self) (data_items (_json self)) /\
  StronglySorted
    (fun a b => _calculate_mime_rank a <= _calculate_mime_rank b)
    (CellOutput_data self) /\
  forall k : Z,
    List.filter (fun kv => _calculate_mime_rank kv =? k) (CellOutput_data self)
    = List.filter (fun kv => _calculate_mime_rank kv =? k)
        (data_items (_json self)).
Proof.
  unfold CellOutput_data. split; [apply sorted_perm|].
  split; [apply sorted_sorted|]. intros k. apply sorted_filter.
Qed.

Lemma selected_mime_of_no_data (self : CellOutput) :
  data_items (_json self) = [] -> selected_mime self = Raise StopIteration.
Proof.
  intros Hdata. unfold selected_mime, CellOutput_data. rewrite Hdata. cbn.
  destruct (_selected_mime self); reflexivity.
Qed.

Lemma container_of_no_data (self : CellOutput) :
  data_items (_json self) = [] ->
  container self = (Raise StopIteration, self).
Proof.
  intros Hdata. unfold container.
  rewrite (selected_mime_of_no_data self Hdata). reflexivity.
Qed.

(** X17: an output without data, such as a display output with no [data] key or
    an empty one, has no MIME type to select: [selected_mime] and
    [container] raise [StopIteration], and the object is left as it was. *)
Theorem empty_data_raises (self : CellOutput) :
  data_items (_json self) = [] ->
  selected_mime self = Raise StopIteration /\
  container self = (Raise StopIteration, self).
Proof.
  intros Hdata. split.
  - exact (selected_mime_of_no_data self Hdata).
  - exact (container_of_no_data self Hdata).
Qed.

End RankFacts.

(** ** The renderer cache *)

Section CacheFacts.
Import Py CellOutputs.

(** The renderer that [container] builds for a MIME type. *)
Abbreviation element_of self mime cls d :=
  {| element_class := cls;
     element_mime := mime;
     element_data := d;
     element_metadata := metadata_for (_json self) mime;
     element_cell := cell self |}.








End CacheFacts.

Section CellExamples.
Import Py CellOutputs.

Lemma mime_rank_range_witness :
  _calculate_mime_rank (".", "x") = 999 /\
  0 <= _calculate_mime_rank ("image/png", "x") <= 10.
Proof.
  split.
  - apply (proj1 (mime_rank_range "." "x")). reflexivity.
  - apply (proj2 (mime_rank_range "image/png" "x")). discriminate.
Defined.

Lemma html_or_plain_selected_witness :
  let json plain html :=
    {| json_output_type := Some "execute_result"; json_name := None;
       json_text := None; json_traceback := None;
       json_data := Some [("text/plain", plain); ("text/html", html)];
       json_metadata := None |} in
  selected_mime (CellOutput_init (json "1" "<b>1</b>") 0%nat)
  = Ok "text/html" /\
  selected_mime (CellOutput_init (json "1" "1") 0%nat) = Ok "text/plain".
Proof.
  intros json. split.
  - apply (html_or_plain_selected (CellOutput_init (json "1" "<b>1</b>") 0%nat)
             "1" "<b>1</b>" eq_refl).
    left. reflexivity.
  - apply (html_or_plain_selected (CellOutput_init (json "1" "1") 0%nat)
             "1" "1" eq_refl).
    left. reflexivity.
Defined.

Lemma empty_data_raises_witness :
  let json :=
    {| json_output_type := Some "display_data"; json_name := None;
       json_text := None; json_traceback := None;
       json_data := None; json_metadata := None |} in
  container (CellOutput_init json 0%nat)
  = (Raise StopIteration, CellOutput_init json 0%nat).
Proof.
  intros json.
  exact (proj2 (empty_data_raises (CellOutput_init json 0%nat) eq_refl)).
Defined.



End CellExamples.

(** ** An output area whose records cannot all be rendered *)

Section AreaFailureFacts.
Import Py CellOutputs.
Local Open Scope nat_scope.

(** After the loop over the records, the outputs are distinct objects, one
    for each record, and each has its record as JSON. *)
Lemma reconcile_objects (c : Cell) (existing : list addr)
    (json : list OutputJson) (h : store) :
  NoDup existing ->
  Forall (fun a => a < length h) existing ->
  let rec := reconcile c existing 0 json h in
  NoDup rec.1 /\
  length rec.1 = length json /\
  forall k j,
    json !! k = Some j ->
    exists a o, rec.1 !! k = Some a /\ rec.2 !! a = Some o /\ _json o = j.
Proof.
  intros Hnd Hall rec.
  destruct (reconcile_outs c existing json 0 h) as [Houts _].
  destruct (reconcile_store c existing json 0 h Hnd Hall) as (Sa & Sb & _).
  fold rec in Houts, Sa, Sb. cbn zeta in Sa, Sb.
  rewrite Nat.sub_0_r, drop_0 in Houts.
  split; [|split].
  - rewrite Houts. apply NoDup_app. split; [|split].
    + eapply sublist_NoDup; [exact Hnd|apply sublist_take].
    + intros x Hx Hx'. apply elem_of_take in Hx as (i & Hi & _).
      apply (Forall_lookup_1 _ _ _ _ Hall) in Hi.
      apply elem_of_seq in Hx'. lia.
    + apply NoDup_seq.
  - rewrite Houts, length_app, length_take, length_seq. lia.
  - intros k j Hj. pose proof (lookup_lt_Some _ _ _ Hj) as Hk.
    destruct (existing !! k) as [a|] eqn:E.
    + pose proof (lookup_lt_Some _ _ _ E) as Hlt.
      destruct (Sa k a j E Hj) as (o & _ & Ho).
      exists a, (CellOutput_set_json o j).
      split; [|split; [exact Ho|reflexivity]].
      rewrite Houts, lookup_app_l by (rewrite length_take; lia).
      rewrite lookup_take_lt by exact Hk. exact E.
    + pose proof (lookup_ge_None_1 _ _ E) as Hge.
      exists (length h + (k - length existing)), (CellOutput_init j c).
      split; [|split; [|reflexivity]].
      * rewrite Houts, lookup_app_r by (rewrite length_take; lia).
        rewrite length_take, lookup_seq_lt by lia. f_equal. lia.
      * specialize (Sb k j E Hj). rewrite Nat.sub_0_r in Sb. exact Sb.
Qed.

(** Building the containers raises when one of the outputs has no data. *)
Lemma to_containers_raises (outs : list addr) :
  forall (h : store) (k : nat) (a : addr) (o : CellOutput),
    NoDup outs ->
    outs !! k = Some a ->
    h !! a = Some o ->
    data_items (_json o) = [] ->
    exists e, (to_containers outs h).1 = Raise e.
Proof.
  induction outs as [|a0 outs IH]; intros h k a o Hnd Hk Ha Hdata;
    [discriminate|].
  cbn [to_containers].
  destruct (h !! a0) as [o0|] eqn:E; [|cbn; eauto].
  destruct k as [|k].
  - injection Hk as ->. rewrite Ha in E. injection E as <-.
    rewrite (container_of_no_data o Hdata). cbn. eauto.
  - cbn in Hk. destruct (container o0) as [[element|e] o0']; [|cbn; eauto].
    apply NoDup_cons in Hnd as [Hnotin Hnd].
    assert (Hne : a0 <> a).
    { intros ->. apply Hnotin. eapply list_elem_of_lookup_2. exact Hk. }
    assert (Ha' : <[a0 := o0']> h !! a = Some o)
      by (rewrite list_lookup_insert_ne by exact Hne; exact Ha).
    destruct (IH _ k a o Hnd Hk Ha' Hdata) as [e He].
    destruct (to_containers outs (<[a0 := o0']> h)) as [rs h2].
    cbn [fst] in *. subst rs. eauto.
Qed.

(** X21: assigning a JSON list in which a record has no data raises, and the
    assignment is not undone: the area keeps the children it showed before,
    but it has taken the new JSON and has one output for each of its
    records. *)
Theorem area_json_failure_keeps_children (self : CellOutputArea) (h : store)
    (outputs_json : list OutputJson) (k : nat) (bad : OutputJson) :
  area_wf self h ->
  outputs_json !! k = Some bad ->
  data_items bad = [] ->
  let out := CellOutputArea_set_json self outputs_json h in
  (exists e, returned out = Raise e) /\
  area_children (area_after out) = area_children self /\
  area_json (area_after out) = outputs_json /\
  length (area_rendered_outputs (area_after out)) = length outputs_json.
Proof.
  intros (Hnd & Hall & _) Hk Hbad out.
  destruct (reconcile_objects (area_cell self) (area_rendered_outputs self)
              outputs_json h Hnd Hall) as (Hnd' & Hlen & Hobj).
  cbv zeta in Hnd', Hlen, Hobj.
  destruct (Hobj k bad Hk) as (a & o & Ha & Ho & Hj).
  subst out. unfold CellOutputArea_set_json, rendered_outputs.
  cbn [area_cell area_rendered_outputs area_json area_children].
  destruct (reconcile _ _ 0 outputs_json h) as [outs h1]. cbn [fst snd] in *.
  assert (Hdata : data_items (_json o) = []) by (rewrite Hj; exact Hbad).
  destruct (to_containers_raises outs h1 k a o Hnd' Ha Ho Hdata) as [e He].
  destruct (to_containers outs h1) as [r h2]. cbn [fst] in He. subst r.
  cbn. repeat split; eauto.
Qed.

End AreaFailureFacts.

Section AreaFailureExamples.
Import Py CellOutputs.

(** An area that shows one stream output is assigned the stream and a
    display output without data: the assignment raises, the area still
    shows the one child, and it holds two outputs. *)
Lemma area_json_failure_keeps_children_witness :
  let stream :=
    {| json_output_type := Some "stream"; json_name := Some "stdout";
       json_text := Some "a"; json_traceback := None;
       json_data := None; json_metadata := None |} in
  let empty :=
    {| json_output_type := Some "display_data"; json_name := None;
       json_text := None; json_traceback := None;
       json_data := None; json_metadata := None |} in
  let shown := mkElement CellOutputDataElement "stream/stdout" "a" [] 0%nat in
  let self := mkCellOutputArea 0%nat [0%nat] [stream] [shown] in
  let out :=
    CellOutputArea_set_json self [stream; empty]
      [CellOutput_init stream 0%nat] in
  returned out = Raise StopIteration /\
  area_children (area_after out) = [shown] /\
  length (area_rendered_outputs (area_after out)) = 2%nat.
Proof.
  intros stream empty shown self out.
  destruct (area_json_failure_keeps_children self
              [CellOutput_init stream 0%nat] [stream; empty] 1%nat empty)
    as (_ & Hchildren & _ & Hlen).
  - split; [apply NoDup_singleton|]. split; [|reflexivity].
    repeat constructor.
  - reflexivity.
  - reflexivity.
  - split; [reflexivity|]. split; [exact Hchildren|exact Hlen].
Defined.

End AreaFailureExamples.

(** ** More on the application shell *)

Section TabOpMore.
Import Py Tui.

Variable none_attr : string -> option attr.

(** X22: [tab_op] without a tab acts on the current tab and never raises: it
    calls the operation if the current tab has it as a method, and does
    nothing otherwise.  Given a tab that lacks the operation it does
    nothing, whatever the current tab has.  So it raises only when it is
    given a tab that has the operation and that is not the current tab,
    while the current tab, or [None] when there is none, lacks it. *)
Theorem tab_op_raises_only_for_another_tab (self : TuiApp)
    (operation : string) :
  tab_op none_attr self operation None
  = (match tab self with
     | Some cur =>
         match tab_attrs cur !! operation with
         | Some Method => [(OnTab (tab_id cur), operation)]
         | _ => []
         end
     | None => []
     end, Ok tt) /\
  (forall t : Tab,
     hasattr t operation = false ->
     tab_op none_attr self operation (Some t) = ([], Ok tt)) /\
  (forall (t : option Tab) (e : exn),
     (tab_op none_attr self operation t).2 = Raise e ->
     e = AttributeError /\
     exists given,
       t = Some given /\ hasattr given operation = true /\
       tab self <> Some given /\
       getattr none_attr (tab self) operation = Raise AttributeError).
Proof.
  split; [|split].
  - unfold tab_op. destruct (tab self) as [cur|]; [|reflexivity].
    unfold hasattr, getattr.
    destruct (tab_attrs cur !! operation) as [[|]|]; reflexivity.
  - intros t Ht. unfold tab_op. rewrite Ht. reflexivity.
  - intros t e. unfold tab_op.
    destruct t as [given|].
    + destruct (hasattr given operation) eqn:Hhas; [|discriminate].
      unfold getattr.
      destruct (tab self) as [cur|] eqn:Hcur.
      * destruct (tab_attrs cur !! operation) as [a|] eqn:Hattr.
        { destruct (callable a); discriminate. }
        cbn [snd]. intros [= <-]. split; [reflexivity|].
        exists given. split; [reflexivity|]. split; [exact Hhas|].
        split; [|reflexivity].
        intros [= ->]. unfold hasattr in Hhas. rewrite Hattr in Hhas.
        discriminate.
      * destruct (none_attr operation) as [a|] eqn:Hattr.
        { destruct (callable a); discriminate. }
        cbn [snd]. intros [= <-]. split; [reflexivity|].
        exists given. split; [reflexivity|]. split; [exact Hhas|].
        split; [discriminate|reflexivity].
    + destruct (tab self) as [cur|]; [|discriminate].
      unfold hasattr, getattr.
      destruct (tab_attrs cur !! operation) as [[|]|]; discriminate.
Qed.

End TabOpMore.

Section TabOpMoreExamples.
Import Py Tui.

(** The current notebook has [save]; a log view that has no [save] is
    passed: nothing is called. *)
Lemma tab_op_raises_only_for_another_tab_witness :
  let none_attr (name : string) : option attr := None in
  let cur := mkTab 2 {[ "save" := Method ]} in
  let log := mkTab 3 ∅ in
  let self := mkTuiApp [cur; log] (Some cur) [] [] 0%nat 0%nat in
  tab_op none_attr self "save" (Some log) = ([], Ok tt) /\
  tab_op none_attr self "save" None = ([(OnTab 2, "save")], Ok tt).
Proof.
  intros none_attr cur log self.
  destruct (tab_op_raises_only_for_another_tab none_attr self "save")
    as (Hdefault & Hlacks & _).
  split; [apply Hlacks; reflexivity|exact Hdefault].
Defined.

End TabOpMoreExamples.

Section DialogMore.
Import Py Tui.

Variable is_focusable : Control -> bool.

Lemma remove_float_absent (d : nat) (fs : list Float) :
  Forall (fun f => float_id f <> d) fs ->
  remove_float d fs = Raise ValueError.
Proof.
  induction 1 as [|f fs Hf _ IH]; cbn [remove_float]; [reflexivity|].
  destruct (Nat.eqb_spec (float_id f) d); [contradiction|].
  rewrite IH. reflexivity.
Qed.

Lemma run_handler_calls (h : handler) (self : TuiApp) (fs : list Float) :
  remove_float (handler_dialog h) (floats self) = Ok fs ->
  (run_handler is_focusable h self).1.2
  = match handler_cb h with
    | Some cb => [cb]
    | None => []
    end.
Proof.
  intros Hrm. unfold run_handler. rewrite Hrm.
  destruct (handler_cb h); reflexivity.
Qed.

(** X23: a dialog closes once: any of its buttons removes the dialog, calls the
    callback of that button and gives back the floats as they were before
    the dialog was opened; after that, every button of the dialog, the same
    one included, raises [ValueError], since the dialog is no longer among
    the floats, and neither calls its callback nor changes anything. *)
Theorem dialog_closes_once (self : TuiApp) (body : list Control)
    (buttons : list button) (to_focus : option Control) (h h' : handler) :
  Forall (fun f => (float_id f < next_float self)%nat) (floats self) ->
  let opened := dialog is_focusable self body buttons to_focus in
  In h opened.1.2 ->
  In h' opened.1.2 ->
  let closed := run_handler is_focusable h opened.1.1 in
  closed.2 = Ok tt /\
  floats closed.1.1 = floats self /\
  closed.1.2 = match handler_cb h with
               | Some cb => [cb]
               | None => []
               end /\
  run_handler is_focusable h' closed.1.1 = (closed.1.1, [], Raise ValueError).
Proof.
  intros Hfresh opened Hh Hh' closed.
  destruct (dialog_captures _ _ _ _ _ _ Hh) as [_ Hd].
  destruct (dialog_captures _ _ _ _ _ _ Hh') as [_ Hd'].
  destruct (dialog_floats is_focusable self body buttons to_focus)
    as [Hfl _].
  fold opened in Hfl.
  assert (Hrm : remove_float (handler_dialog h) (floats opened.1.1)
                = Ok (floats self)).
  { rewrite Hfl, Hd. cbn. rewrite Nat.eqb_refl. reflexivity. }
  destruct (run_handler_restores is_focusable h opened.1.1 _ Hrm)
    as (Hr & Hfs & _ & _).
  fold closed in Hr, Hfs.
  split; [exact Hr|]. split; [exact Hfs|].
  split; [exact (run_handler_calls h opened.1.1 _ Hrm)|].
  unfold run_handler at 1. rewrite Hfs, Hd', remove_float_absent; [reflexivity|].
  eapply Forall_impl; [exact Hfresh|]. cbn. intros f Hf. lia.
Qed.


End DialogMore.

Section DialogMoreExamples.
Import Py Tui.
Local Open Scope nat_scope.

(** A dialog with the buttons OK and Cancel: OK closes it and calls its
    callback, and Cancel, pressed after that, raises. *)
Lemma dialog_closes_once_witness :
  let focusable (c : Control) := true in
  let self := mkTuiApp [] None [] [1] 1 0 in
  let buttons := [mkButton "OK" (Some 5) 10; mkButton "Cancel" None 11] in
  let opened := dialog focusable self [] buttons None in
  let closed := run_handler focusable (mkHandler 0 1 (Some 5)) opened.1.1 in
  closed.1.2 = [5] /\
  floats closed.1.1 = [] /\
  (run_handler focusable (mkHandler 0 1 None) closed.1.1).2
  = Raise ValueError.
Proof.
  intros focusable self buttons opened closed.
  destruct (dialog_closes_once focusable self [] buttons None
              (mkHandler 0 1 (Some 5)) (mkHandler 0 1 None))
    as (_ & Hfl & Hcalls & Hagain).
  - constructor.
  - left. reflexivity.
  - right. left. reflexivity.
  - split; [exact Hcalls|]. split; [exact Hfl|].
    fold opened closed in Hagain. rewrite Hagain. reflexivity.
Defined.


End DialogMoreExamples.

(** *** The status bar *)

Section StatusFacts.
Import Py Tui Shell.

Variable value : Type.
Variable truthy : value -> bool.
Variable to_formatted_text : value -> string -> Layout.StyleAndTextTuples.
Variable statusbar_fields : Tab -> list (field value) * list (field value).
Variable html_new_notebook : value.
Variable html_quit : value.

Abbreviation shown := (field_truthy value truthy).
Abbreviation pad := (padded value to_formatted_text).
Abbreviation sep := ("class:status", space).

(** What the loop of [format_status] appends for a field. *)
Abbreviation block f := (pad f ++ [sep]).

Lemma status_loop (fields : list (field value)) :
  forall output : Layout.StyleAndTextTuples,
    fold_left
      (fun output f =>
         if shown f then
           output
           ++ [("class:status.field", space)]
           ++ field_text value to_formatted_text f
           ++ [("class:status.field", space); ("class:status", space)]
         else output)
      fields output
    = output ++ flat_map (fun f => block f) (List.filter shown fields).
Proof.
  induction fields as [|f fields IH]; intros output; cbn [fold_left].
  - cbn. rewrite app_nil_r. reflexivity.
  - rewrite IH. cbn [List.filter]. destruct (shown f); [|reflexivity].
    cbn [flat_map]. unfold padded. rewrite <- !app_assoc. reflexivity.
Qed.

Lemma removelast_blocks (fields : list (field value)) :
  List.removelast (flat_map (fun f => block f) fields)
  = separated sep (map pad fields).
Proof.
  induction fields as [|f fields IH]; [reflexivity|].
  destruct fields as [|g fields].
  - cbn [flat_map map separated]. rewrite app_nil_r.
    apply removelast_last.
  - change (flat_map (fun f => block f) (f :: g :: fields))
      with (block f ++ flat_map (fun f => block f) (g :: fields)).
    rewrite removelast_app.
    + rewrite IH. cbn [map separated]. rewrite <- app_assoc. reflexivity.
    + cbn [flat_map]. unfold padded. discriminate.
Qed.

(** X25: the status bar shows the fields that are true, each with a space on
    either side, with one separator between each two of them and none
    before the first or after the last; it is empty when no field is
    true. *)
Theorem format_status_separates (self : TuiApp) (part : string) :
  format_status value truthy to_formatted_text statusbar_fields
    html_new_notebook html_quit self part
  = separated ("class:status", space)
      (map (padded value to_formatted_text)
         (List.filter (field_truthy value truthy)
            (status_entries value statusbar_fields html_new_notebook
               html_quit self part))).
Proof.
  unfold format_status. rewrite status_loop. cbn [app].
  apply removelast_blocks.
Qed.

End StatusFacts.

(** *** The log view *)

Section LogFacts.
Import Py Tui Shell.

Variable is_log_view : Tab -> bool.
Variable LogView : TuiApp -> Tab.

Lemma find_app_none (ts : list Tab) (t : Tab) :
  List.find is_log_view ts = None ->
  is_log_view t = true ->
  List.find is_log_view (ts ++ [t]) = Some t.
Proof.
  induction ts as [|u ts IH]; cbn [List.find app]; intros Hnone Ht.
  - rewrite Ht. reflexivity.
  - destruct (is_log_view u); [discriminate|]. exact (IH Hnone Ht).
Qed.

(** X26: [help_logs] opens at most one log view: it focuses the first log view
    among the tabs if there is one and leaves the tabs as they are, and
    otherwise appends a new log view after the tabs and focuses it; called
    again, it focuses the same tab and changes nothing. *)
Theorem help_logs_opens_one_log_view (self : TuiApp) :
  (forall s : TuiApp, is_log_view (LogView s) = true) ->
  let first := help_logs is_log_view LogView self in
  is_log_view first.2 = true /\
  In first.2 (tabs first.1) /\
  (tabs first.1 = tabs self \/
   List.find is_log_view (tabs self) = None /\
   tabs first.1 = tabs self ++ [first.2]) /\
  help_logs is_log_view LogView first.1 = first.
Proof.
  intros Hnew first.
  destruct (List.find is_log_view (tabs self)) as [t|] eqn:Hfind.
  - assert (Hfirst : first = (self, t))
      by (subst first; unfold help_logs; rewrite Hfind; reflexivity).
    rewrite Hfirst. cbn [fst snd].
    apply find_some in Hfind as Hin. destruct Hin as [Hin Ht].
    split; [exact Ht|]. split; [exact Hin|]. split; [left; reflexivity|].
    unfold help_logs. rewrite Hfind. reflexivity.
  - assert (Hfirst : first
                     = ({| tabs := tabs self ++ [LogView self];
                           tab := tab self;
                           floats := floats self;
                           layout_controls := layout_controls self;
                           current_control := current_control self;
                           next_float := next_float self |}, LogView self))
      by (subst first; unfold help_logs; rewrite Hfind; reflexivity).
    rewrite Hfirst. cbn [fst snd tabs]. split; [apply Hnew|].
    split; [apply in_or_app; right; left; reflexivity|].
    split; [right; split; reflexivity|].
    unfold help_logs. cbn [tabs].
    rewrite (find_app_none _ _ Hfind (Hnew self)). reflexivity.
Qed.

End LogFacts.

Section LogExamples.
Import Py Tui Shell.

(** Tabs are log views when their identity is 99 or more; one notebook is
    open, and the new log view gets the identity 99. *)
Lemma help_logs_opens_one_log_view_witness :
  let is_log_view t := (99 <=? tab_id t)%nat in
  let LogView (s : TuiApp) := mkTab 99 ∅ in
  let self := mkTuiApp [mkTab 1 ∅] None [] [] 0%nat 0%nat in
  tabs (help_logs is_log_view LogView self).1 = [mkTab 1 ∅; mkTab 99 ∅] /\
  help_logs is_log_view LogView (help_logs is_log_view LogView self).1
  = help_logs is_log_view LogView self.
Proof.
  intros is_log_view LogView self.
  destruct (help_logs_opens_one_log_view is_log_view LogView self)
    as (_ & _ & _ & Hagain); [reflexivity|].
  split; [reflexivity|exact Hagain].
Defined.

End LogExamples.

(** ** The output of the preview application *)

Section LoadOutputFacts.
Import Preview.

Variable stream_isatty : stream -> bool.
Variable open_w : string -> option open_error.

Abbreviation load := (load_output stream_isatty open_w).


(** X28: the output looks like a terminal whenever the output is paged or a
    colour depth is configured, whatever stream it goes to. *)
Theorem load_output_is_a_tty (cfg : config) (f : output_file)
    (logged : bool) :
  load_output stream_isatty open_w cfg = Loaded f logged ->
  page cfg = true \/ color_depth cfg <> None ->
  isatty stream_isatty f = true.
Proof.
  unfold load_output. intros Hload Hcfg.
  destruct (page cfg) eqn:Hpage.
  { injection Hload as <- _. reflexivity. }
  destruct Hcfg as [Hcfg|Hcfg]; [discriminate|].
  destruct (color_depth cfg) as [depth|]; [|contradiction].
  destruct (match config_output_file cfg with
            | Some path => _
            | None => _
            end) as [f0 logged0|e0]; [|discriminate].
  destruct (isatty stream_isatty f0) eqn:Htty; cbn [negb andb] in Hload;
    injection Hload as <- _; [exact Htty|reflexivity].
Qed.


End LoadOutputFacts.

Section LoadOutputExamples.
Import Preview.


(** Written to a file that is opened, with a colour depth configured: the
    file is wrapped so that it reports a terminal. *)
Lemma load_output_is_a_tty_witness :
  let cfg := mkConfig false (Some "out.txt") (Some 24) in
  isatty (fun _ => false) (PseudoTTY (OpenedFile "out.txt") true) = true /\
  load_output (fun _ => false) (fun _ => None) cfg
  = Loaded (PseudoTTY (OpenedFile "out.txt") true) false.
Proof.
  intros cfg. split; [|reflexivity].
  apply (load_output_is_a_tty (fun _ => false) (fun _ => None) cfg _ false).
  - reflexivity.
  - right. discriminate.
Defined.


End LoadOutputExamples.

(** ** The split whose orientation follows a filter *)

Section ConditionalFacts.
Import Conditional.
Local Open Scope nat_scope.

Lemma bool_map_size {V : Type} (m : gmap bool V) : size m <= 2.
Proof.
  rewrite <- size_dom.
  assert (Hsub : dom m ⊆ ({[true; false]} : gset bool)).
  { intros [|] _; set_solver. }
  apply subseteq_size in Hsub.
  rewrite size_union in Hsub by set_solver.
  rewrite !size_singleton in Hsub. exact Hsub.
Qed.

(** A call of [container] never evicts: it returns what the cache holds for
    the value of the filter afterwards, keeps every entry the cache had, and
    builds a container only when the cache had none for that value. *)
Lemma cache_get_keeps (self : ConditionalSplit) (key : bool) :
  _data (cache_get self key).2 !! key = Some (cache_get self key).1 /\
  (forall k v,
     _data self !! k = Some v -> _data (cache_get self key).2 !! k = Some v) /\
  (forall v, _data self !! key = Some v -> (cache_get self key).1 = v) /\
  next_id (cache_get self key).2 + size (_data self)
  = next_id self + size (_data (cache_get self key).2) /\
  (_data self !! key = None ->
   (cache_get self key).1 = load_container key (next_id self)).
Proof.
  unfold cache_get.
  destruct (_data self !! key) as [value|] eqn:Hkey.
  - cbn [fst snd]. split; [exact Hkey|]. split; [auto|].
    split; [intros v [= <-]; reflexivity|]. split; [lia|discriminate].
  - pose proof (bool_map_size
      (<[key := load_container key (next_id self)]> (_data self))) as Hsize.
    destruct (Nat.ltb_spec maxsize
      (size (<[key := load_container key (next_id self)]> (_data self))))
      as [Hlt|_]; [unfold maxsize in Hlt; lia|].
    cbn [fst snd _data next_id].
    split; [apply lookup_insert_eq|]. split.
    + intros k v Hk. rewrite lookup_insert_ne; [exact Hk|congruence].
    + split; [discriminate|]. split; [|reflexivity].
      rewrite map_size_insert_None by exact Hkey. lia.
Qed.

Lemma containers_cached (verticals : list bool) :
  forall (self : ConditionalSplit) (k : bool) (v : split_container),
    _data self !! k = Some v ->
    (forall i, verticals !! i = Some k ->
               (containers self verticals).1 !! i = Some v) /\
    _data (containers self verticals).2 !! k = Some v.
Proof.
  induction verticals as [|vertical verticals IH]; intros self k v Hk;
    cbn [containers].
  - split; [intros i Hi; discriminate|exact Hk].
  - unfold container.
    destruct (cache_get_keeps self vertical) as (_ & Hkeep & Hhit & _).
    destruct (cache_get self vertical) as [c self1]. cbn [fst snd] in *.
    destruct (IH self1 k v (Hkeep k v Hk)) as [IHi IHd].
    destruct (containers self1 verticals) as [cs self2]. cbn [fst snd] in *.
    split; [|exact IHd].
    intros [|i] Hi.
    + injection Hi as ->. cbn. f_equal. exact (Hhit v Hk).
    + cbn in Hi. cbn. exact (IHi i Hi).
Qed.

Lemma containers_length (verticals : list bool) :
  forall self : ConditionalSplit,
    length (containers self verticals).1 = length verticals.
Proof.
  induction verticals as [|vertical verticals IH]; intros self;
    cbn [containers]; [reflexivity|].
  destruct (container self vertical) as [c self1].
  specialize (IH self1).
  destruct (containers self1 verticals) as [cs self2]. cbn in *. lia.
Qed.

Lemma containers_same (verticals : list bool) :
  forall (self : ConditionalSplit) (i j : nat) (v : bool),
    verticals !! i = Some v ->
    verticals !! j = Some v ->
    (containers self verticals).1 !! i = (containers self verticals).1 !! j.
Proof.
  induction verticals as [|vertical verticals IH]; intros self i j v Hi Hj;
    [discriminate|].
  cbn [containers]. unfold container.
  destruct (cache_get_keeps self vertical) as (Hnow & _).
  pose proof (containers_cached verticals (cache_get self vertical).2
                vertical _ Hnow) as [Hlater _].
  pose proof (IH (cache_get self vertical).2) as IH'.
  destruct (cache_get self vertical) as [c self1]. cbn [fst snd] in *.
  destruct (containers self1 verticals) as [cs self2]. cbn [fst snd] in *.
  destruct i as [|i], j as [|j]; cbn in Hi, Hj |- *.
  - reflexivity.
  - injection Hi as ->. symmetry. exact (Hlater j Hj).
  - injection Hj as ->. exact (Hlater i Hi).
  - exact (IH' i j v Hi Hj).
Qed.

Lemma containers_built (verticals : list bool) :
  forall self : ConditionalSplit,
    next_id (containers self verticals).2 + size (_data self)
    = next_id self + size (_data (containers self verticals).2).
Proof.
  induction verticals as [|vertical verticals IH]; intros self;
    cbn [containers]; [reflexivity|].
  unfold container.
  destruct (cache_get_keeps self vertical) as (_ & _ & _ & Hbuilt & _).
  specialize (IH (cache_get self vertical).2).
  destruct (cache_get self vertical) as [c self1]. cbn [fst snd] in *.
  destruct (containers self1 verticals) as [cs self2]. cbn [fst snd] in *.
  lia.
Qed.

(** Every container in the cache is the one [load_container] makes for its
    key. *)
Lemma containers_oriented (verticals : list bool) :
  forall self : ConditionalSplit,
    (forall k c, _data self !! k = Some c -> exists id, c = load_container k id) ->
    forall i v c,
      verticals !! i = Some v ->
      (containers self verticals).1 !! i = Some c ->
      exists id, c = load_container v id.
Proof.
  induction verticals as [|vertical verticals IH]; intros self Hinv i v c Hi Hc;
    [discriminate|].
  revert Hc. cbn [containers]. unfold container.
  destruct (cache_get_keeps self vertical) as (_ & _ & Hhit & _ & Hmiss).
  assert (Hinv1 : forall k c0,
            _data (cache_get self vertical).2 !! k = Some c0 ->
            exists id, c0 = load_container k id).
  { unfold cache_get.
    destruct (_data self !! vertical) as [value|] eqn:Hkey; [exact Hinv|].
    pose proof (bool_map_size
      (<[vertical := load_container vertical (next_id self)]> (_data self)))
      as Hsize.
    destruct (Nat.ltb_spec maxsize
      (size (<[vertical := load_container vertical (next_id self)]>
               (_data self))))
      as [Hlt|_]; [unfold maxsize in Hlt; lia|].
    cbn [snd _data]. intros k c0. rewrite lookup_insert.
    case_decide as Hk; [|apply Hinv].
    subst k. intros [= <-]. eauto. }
  specialize (IH (cache_get self vertical).2 Hinv1).
  destruct (_data self !! vertical) as [value|] eqn:Hkey.
  - specialize (Hhit value eq_refl).
    destruct (cache_get self vertical) as [c1 self1]. cbn [fst snd] in *.
    destruct (containers self1 verticals) as [cs self2]. cbn [fst snd] in *.
    destruct i as [|i]; cbn in Hi |- *.
    + injection Hi as ->. intros [= <-]. subst c1. exact (Hinv _ _ Hkey).
    + intros Hc. exact (IH i v c Hi Hc).
  - specialize (Hmiss eq_refl).
    destruct (cache_get self vertical) as [c1 self1]. cbn [fst snd] in *.
    destruct (containers self1 verticals) as [cs self2]. cbn [fst snd] in *.
    destruct i as [|i]; cbn in Hi |- *.
    + injection Hi as ->. intros [= <-]. subst c1. eauto.
    + intros Hc. exact (IH i v c Hi Hc).
Qed.

(** X13: a conditional split builds each orientation once: over any sequence of
    calls of [container], two calls at which the filter has the same value
    return the same container, so a split built once is the one shown every
    time its orientation comes back; no more than two containers are ever
    built; and on a new split, the container returned when the filter is
    true is a horizontal split and the one returned when it is false a
    vertical split. *)
Theorem conditional_split_builds_each_once (self : ConditionalSplit)
    (verticals : list bool) :
  let run := containers self verticals in
  length run.1 = length verticals /\
  (forall (i j : nat) (v : bool),
     verticals !! i = Some v -> verticals !! j = Some v ->
     run.1 !! i = run.1 !! j) /\
  next_id run.2 <= next_id self + 2 /\
  (forall (i : nat) (v : bool) (c : split_container),
     verticals !! i = Some v ->
     (containers ConditionalSplit_init verticals).1 !! i = Some c ->
     exists id, c = if v then HSplit id else VSplit id).
Proof.
  intros run. split; [apply containers_length|].
  split; [apply containers_same|]. split.
  - pose proof (containers_built verticals self) as Hbuilt. fold run in Hbuilt.
    pose proof (bool_map_size (_data run.2)). lia.
  - intros i v c Hi Hc.
    apply (containers_oriented verticals ConditionalSplit_init) with (i := i);
      [|exact Hi|exact Hc].
    intros k c0 Hk. cbn in Hk. rewrite lookup_empty in Hk. discriminate.
Qed.

End ConditionalFacts.

Section ConditionalExamples.
Import Conditional.

(** The filter is true, then false, then true again: the third call returns
    the container of the first. *)
Lemma conditional_split_builds_each_once_witness :
  let run := containers ConditionalSplit_init [true; false; true] in
  run.1 !! 0%nat = run.1 !! 2%nat /\
  run.1 = [HSplit 0; VSplit 1; HSplit 0] /\
  next_id run.2 = 2%nat.
Proof.
  intros run.
  destruct (conditional_split_builds_each_once ConditionalSplit_init
              [true; false; true]) as (_ & Hsame & _).
  split; [exact (Hsame 0%nat 2%nat true eq_refl eq_refl)|].
  split; vm_compute; reflexivity.
Defined.

End ConditionalExamples.
